(** * Geofence event tracker: zone membership and transition engine

    A shallow embedding of [main.py] (the FastAPI service that tracks
    vehicles against circular geofences) and the proofs of its
    specification.

    - Python floats are IEEE 754 binary64 numbers: Rocq's primitive
      floats, whose [+], [-], [*], [/], [sqrt] and comparisons are the
      same operations.
    - [math.sin], [math.cos], [math.atan2] and the power operator go to
      the platform's C library; they are the fields of [PyMath].  The
      theorems hold for any such library; where one needs a value of the
      library, it says so in a hypothesis.
    - Exceptions are explicit: a computation returns [Ok v] or
      [Raise e]; a request handler also threads the two module-level
      stores, [VEHICLE_STATE] and [EVENT_LOG].
    - Logging and the HTTP layer are not modelled. *)

From Stdlib Require Import ZArith Lia Floats.
From stdpp Require Import gmap strings list.

(* The decimal literals of the source are rounded to binary64, as Python
   does when it reads them. *)
Set Warnings "-inexact-float".

(** ** Python values and exceptions *)

Module Py.

Inductive exn : Type :=
| ValueError
| OverflowError
| HTTPException (status_code : Z) (detail : string).

Inductive result (A : Type) : Type :=
| Ok (a : A)
| Raise (e : exn).
Global Arguments Ok {A} a.
Global Arguments Raise {A} e.

Global Instance result_ret : MRet result := @Ok.
Global Instance result_bind : MBind result :=
  λ A B f r, match r with Ok a => f a | Raise e => Raise e end.

(** Truth value of an [Optional[str]]: [None] and the empty string are
    false. *)
Definition truthy (o : option string) : bool :=
  match o with
  | Some s => negb (String.eqb s "")
  | None => false
  end.

(** [l[start:]] for any integer [start]: a negative index counts from
    the end, and both ends are clamped to the list. *)
Definition slice_from {A : Type} (start : Z) (l : list A) : list A :=
  let n := Z.of_nat (length l) in
  let i := if (start <? 0)%Z then Z.max (start + n) 0 else Z.min start n in
  drop (Z.to_nat i) l.

(** [math.radians(x)] is [x * (pi / 180)] in binary64. *)
Definition degToRad : float := (0x1.921fb54442d18p+1 / 180)%float.
Definition math_radians (x : float) : float := (x * degToRad)%float.

(** [math.sqrt(x)]: the IEEE square root; a NaN result for an argument
    that is not NaN (that is, a negative argument) is a
    [ValueError: math domain error]. *)
Definition math_sqrt (x : float) : result float :=
  let r := PrimFloat.sqrt x in
  if is_nan r && negb (is_nan x) then Raise ValueError else Ok r.

(** The functions that Python takes from the C library. *)
Record PyMath : Type := {
  math_sin : float → result float;
  math_cos : float → result float;
  math_atan2 : float → float → result float;
  (** [x ** y] on floats *)
  float_pow : float → float → result float;
}.

End Py.
Import Py.

(** ** Models (lines 39-78 of main.py) *)

(** [datetime] values are opaque to the service. *)
Definition datetime : Type := Z.
Bind Scope Z_scope with datetime.

Module LocationEvent.
Record t : Type := mk {
  vehicleId : string;
  latitude : float;
  longitude : float;
  (** already defaulted to the server time by the validator *)
  timestamp : datetime;
}.
End LocationEvent.

Module GeofenceZone.
Record t : Type := mk {
  id : string;
  center_lat : float;
  center_lng : float;
  radius_m : float;
}.
End GeofenceZone.

Module VehicleStatus.
Record t : Type := mk {
  vehicleId : string;
  currentZone : option string;
  lastLatitude : float;
  lastLongitude : float;
  lastUpdated : datetime;
}.
End VehicleStatus.

Module ZoneEvent.
Record t : Type := mk {
  eventType : string;
  vehicleId : string;
  zoneId : string;
  timestamp : datetime;
  fromZone : option string;
  toZone : option string;
}.
End ZoneEvent.

Module LocationResponse.
Record t : Type := mk {
  status : VehicleStatus.t;
  generatedEvents : list ZoneEvent.t;
}.
End LocationResponse.

(** ** In-memory state (lines 107-110) *)

Record State : Type := mkState {
  VEHICLE_STATE : gmap string VehicleStatus.t;
  EVENT_LOG : list ZoneEvent.t;
}.

Definition initial_state : State :=
  {| VEHICLE_STATE := ∅; EVENT_LOG := [] |}.

(** A request handler reads and writes the two stores and returns a value
    or raises; what it wrote before raising stays written. *)
Definition handler (A : Type) : Type := State → result A * State.

Global Instance handler_ret : MRet handler := λ A a s, (Ok a, s).
Global Instance handler_bind : MBind handler :=
  λ A B f h s,
    match h s with
    | (Ok a, s') => f a s'
    | (Raise e, s') => (Raise e, s')
    end.

Definition lift {A : Type} (r : result A) : handler A := λ s, (r, s).
Definition raise {A : Type} (e : exn) : handler A := λ s, (Raise e, s).

(** [VEHICLE_STATE.get(k)] *)
Definition VEHICLE_STATE_get (k : string) : handler (option VehicleStatus.t) :=
  λ s, (Ok (VEHICLE_STATE s !! k), s).

(** [VEHICLE_STATE[k] = v] *)
Definition VEHICLE_STATE_set (k : string) (v : VehicleStatus.t) : handler unit :=
  λ s, (Ok tt, {| VEHICLE_STATE := <[k := v]> (VEHICLE_STATE s); EVENT_LOG := EVENT_LOG s |}).

(** [EVENT_LOG.extend(es)]; [EVENT_LOG.append(e)] is [EVENT_LOG_extend [e]]. *)
Definition EVENT_LOG_extend (es : list ZoneEvent.t) : handler unit :=
  λ s, (Ok tt, {| VEHICLE_STATE := VEHICLE_STATE s; EVENT_LOG := EVENT_LOG s ++ es |}).
Definition EVENT_LOG_append (e : ZoneEvent.t) : handler unit := EVENT_LOG_extend [e].

Definition EVENT_LOG_read : handler (list ZoneEvent.t) := λ s, (Ok (EVENT_LOG s), s).

(** ** The service *)

Section Service.

(** The C library behind [math], and the zone catalog: the list [ZONES]
    of the module, or any other list of zones. *)
Variable lib : PyMath.
Variable zones : list GeofenceZone.t.

(** Lines 116-129. Operands are evaluated left to right, so the first
    call that raises decides the exception. *)
Definition haversine_distance_m (lat1 lon1 lat2 lon2 : float) : result float :=
  let R := 6371000%float in
  let phi1 := math_radians lat1 in
  let phi2 := math_radians lat2 in
  let d_phi := math_radians (lat2 - lat1) in
  let d_lambda := math_radians (lon2 - lon1) in
  s1 ← math_sin lib (d_phi / 2);
  p1 ← float_pow lib s1 2;
  c1 ← math_cos lib phi1;
  c2 ← math_cos lib phi2;
  s2 ← math_sin lib (d_lambda / 2);
  p2 ← float_pow lib s2 2;
  let a := (p1 + c1 * c2 * p2)%float in
  sa ← math_sqrt a;
  sb ← math_sqrt (1 - a);
  t ← math_atan2 lib sa sb;
  let c := (2 * t)%float in
  mret (R * c)%float.

(** Lines 137-141: the loop over the catalog. *)
Fixpoint for_zone_in (zs : list GeofenceZone.t) (lat lng : float)
  : result (option string) :=
  match zs with
  | [] => mret None
  | zone :: rest =>
      distance ← haversine_distance_m lat lng
                   (GeofenceZone.center_lat zone) (GeofenceZone.center_lng zone);
      if (distance <=? GeofenceZone.radius_m zone)%float
      then mret (Some (GeofenceZone.id zone))
      else for_zone_in rest lat lng
  end.

Definition find_zone_for_point (lat lng : float) : result (option string) :=
  for_zone_in zones lat lng.

(** Lines 153-239. *)
Definition ingest_location (event : LocationEvent.t) : handler LocationResponse.t :=
  let vehicle_id := LocationEvent.vehicleId event in
  let lat := LocationEvent.latitude event in
  let lng := LocationEvent.longitude event in
  let ts := LocationEvent.timestamp event in
  current_zone ← lift (find_zone_for_point lat lng);
  prev_state ← VEHICLE_STATE_get vehicle_id;
  let prev_zone :=
    match prev_state with
    | Some st => VehicleStatus.currentZone st
    | None => None
    end in
  generated_events ←
    (* lines 176-227: [if prev_zone != current_zone], then the chain of
       [if]/[elif] on which of the two zones is [None] *)
    (if bool_decide (prev_zone ≠ current_zone) then
       match prev_zone, current_zone with
       | None, Some cz =>
           let event_obj := ZoneEvent.mk "enter" vehicle_id cz ts None (Some cz) in
           EVENT_LOG_append event_obj;;
           mret [event_obj]
       | Some pz, None =>
           let event_obj := ZoneEvent.mk "exit" vehicle_id pz ts (Some pz) None in
           EVENT_LOG_append event_obj;;
           mret [event_obj]
       | Some pz, Some cz =>
           let exit_event := ZoneEvent.mk "exit" vehicle_id pz ts (Some pz) (Some cz) in
           let enter_event := ZoneEvent.mk "enter" vehicle_id cz ts (Some pz) (Some cz) in
           EVENT_LOG_extend [exit_event; enter_event];;
           mret [exit_event; enter_event]
       | None, None => mret [] (* no branch of the chain; the zones are equal *)
       end
     else mret []);
  let new_state := VehicleStatus.mk vehicle_id current_zone lat lng ts in
  VEHICLE_STATE_set vehicle_id new_state;;
  mret (LocationResponse.mk new_state generated_events).

(** Lines 243-250. *)
Definition get_vehicle_status (vehicle_id : string) : handler VehicleStatus.t :=
  state ← VEHICLE_STATE_get vehicle_id;
  match state with
  | None => raise (HTTPException 404 "Vehicle not found")
  | Some st => mret st
  end.

(** Lines 254-262; [limit] is [None] when the caller omits it. *)
Definition list_events (vehicleId : option string) (limit : option Z)
  : handler (list ZoneEvent.t) :=
  let limit := default 100%Z limit in
  events ← EVENT_LOG_read;
  let events :=
    if truthy vehicleId
    then filter (λ e, Some (ZoneEvent.vehicleId e) = vehicleId) events
    else events in
  mret (slice_from (- limit) events).

(** Lines 266-270. *)
Definition list_zones : handler (list GeofenceZone.t) := mret zones.

End Service.


(** ** The catalog of the module (lines 85-104) *)

Definition ZONES : list GeofenceZone.t :=
  [ GeofenceZone.mk "airport" 12.9611 77.6387 3000;
    GeofenceZone.mk "downtown" 12.9716 77.5946 5000;
    GeofenceZone.mk "suburb" 12.9956 77.7000 4000 ]%float.

(** ** Sampled values of the C library

    A finite table of arguments and results of the four library
    functions.  [agrees lib t] says that the library [lib] returns the
    values of the table [t]; [sampled t] is the library that knows the
    table only. *)

Record Samples : Type := {
  sin_at : list (float * float);
  cos_at : list (float * float);
  atan2_at : list (float * float * float);
  pow_at : list (float * float * float);
}.

(** An argument outside the table raises [OverflowError], which no
    sampled call does: a computation on [sampled t] that ends otherwise
    has used sampled values only. *)
Fixpoint sample1 (t : list (float * float)) (x : float) : result float :=
  match t with
  | [] => Raise OverflowError
  | (x', y) :: t' => if Leibniz.eqb x' x then Ok y else sample1 t' x
  end.

Fixpoint sample2 (t : list (float * float * float)) (x1 x2 : float) : result float :=
  match t with
  | [] => Raise OverflowError
  | (x1', x2', y) :: t' =>
      if Leibniz.eqb x1' x1 && Leibniz.eqb x2' x2 then Ok y else sample2 t' x1 x2
  end.

Definition sampled (t : Samples) : PyMath :=
  {| math_sin := sample1 (sin_at t);
     math_cos := sample1 (cos_at t);
     math_atan2 := sample2 (atan2_at t);
     float_pow := sample2 (pow_at t) |}.

Definition agrees (lib : PyMath) (t : Samples) : Prop :=
  Forall (λ p, math_sin lib p.1 = Ok p.2) (sin_at t) ∧
  Forall (λ p, math_cos lib p.1 = Ok p.2) (cos_at t) ∧
  Forall (λ p, math_atan2 lib p.1.1 p.1.2 = Ok p.2) (atan2_at t) ∧
  Forall (λ p, float_pow lib p.1.1 p.1.2 = Ok p.2) (pow_at t).

(** What CPython 3.11 returns on glibc 2.36 (x86-64) at the arguments
    that the resolver reaches from the point (-12.97160014, -102.4054),
    next to the antipode of the centre of [downtown]: seven for the
    distance to [airport], five more for the distance to [downtown].
    Each pair is an argument and the result, as [float.hex] prints
    them. *)
Definition near_antipode_samples : Samples :=
  {| sin_at :=
       [ (0x1.cf794222de576p-3, 0x1.cb87182fe9497p-3);
         (0x1.9238ede5613b8p+0, 0x1.fffffd83e401bp-1);
         (0x1.cfa94c7a55399p-3, 0x1.cbb5e8d1c3694p-3);
         (0x1.921fb54442d18p+0, 1) ]%float;
     cos_at :=
       [ (-0x1.cfa94ca44fae0p-3, 0x1.f2ef3b713d354p-1);
         (0x1.cf4937a16d00cp-3, 0x1.f2f49f343fbc0p-1);
         (0x1.cfa94c505ac52p-3, 0x1.f2ef3b75f3537p-1) ]%float;
     atan2_at :=
       [ (0x1.fffffd7fdac23p-1, 0x1.94d149de82f7ap-12, 0x1.9206682f9a5dfp+0) ]%float;
     pow_at :=
       [ (0x1.cb87182fe9497p-3, 2, 0x1.9c6edc0329af3p-5);
         (0x1.fffffd83e401bp-1, 2, 0x1.fffffb07c8067p-1);
         (0x1.cbb5e8d1c3694p-3, 2, 0x1.9cc2e9119f8b5p-5);
         (1, 2, 1) ]%float |}.

(** The same at the arguments that the resolver reaches from the centre
    of [airport], from the point (0, 0) and from the centre of
    [downtown], and the samples above. *)
Definition glibc_samples : Samples :=
  {| sin_at :=
       [ (0, 0);
         (0x1.cf4937a16d00cp-4, 0x1.ce4c7f77b9c00p-4);
         (0x1.5ae49e582ac58p-1, 0x1.40f4b54594dffp-1);
         (0x1.cfa94c505ac52p-4, 0x1.ceabf6db46f90p-4);
         (0x1.5ab22d15edf1ap-1, 0x1.40cd66a7a562dp-1);
         (0x1.d084e94de7f38p-4, 0x1.cf862b5c4b6cap-4);
         (0x1.5b2abc111e614p-1, 0x1.412b535cc816ep-1);
         (-0x1.8052bbb7115d8p-14, -0x1.8052bbae0b8b1p-14);
         (0x1.938a11e69efa5p-12, 0x1.938a113f80742p-12) ]%float
       ++ sin_at near_antipode_samples;
     cos_at :=
       [ (0, 1);
         (0x1.d084e94de7f38p-3, 0x1.f2e2e5a35aecep-1) ]%float
       ++ cos_at near_antipode_samples;
     atan2_at :=
       [ (0, 1, 0);
         (0x1.421150b5afb0dp-1, 0x1.8e03ffe9d9c67p-1, 0x1.5c5251d4472c4p-1);
         (0x1.41eb9a3e61e55p-1, 0x1.8e22813106b17p-1, 0x1.5c21d05c2eafep-1);
         (0x1.4247db9b0791bp-1, 0x1.8dd7d72ed9a2fp-1, 0x1.5c987f55c5802p-1);
         (0x1.94d135f34688ap-12, 0x1.fffffd7fdb013p-1, 0x1.94d1369bfcca3p-12) ]%float
       ++ atan2_at near_antipode_samples;
     pow_at :=
       [ (0, 2, 0);
         (0x1.ce4c7f77b9c00p-4, 2, 0x1.a16c1978087fap-7);
         (0x1.40f4b54594dffp-1, 2, 0x1.9264af18012f2p-2);
         (0x1.ceabf6db46f90p-4, 2, 0x1.a21891419592ep-7);
         (0x1.40cd66a7a562dp-1, 2, 0x1.92022570af1ffp-2);
         (0x1.cf862b5c4b6cap-4, 2, 0x1.a3a34b94a2650p-7);
         (0x1.412b535cc816ep-1, 2, 0x1.92edae63ca19ep-2);
         (-0x1.8052bbae0b8b1p-14, 2, 0x1.207c26e373dc3p-27);
         (0x1.938a113f80742p-12, 2, 0x1.3e0dfe624406dp-23) ]%float
       ++ pow_at near_antipode_samples |}.

(** ** The transition rules and the listing window, as the specification
    words them *)

Definition enter_event (vehicle_id : string) (ts : datetime)
    (from_zone : option string) (zone : string) : ZoneEvent.t :=
  ZoneEvent.mk "enter" vehicle_id zone ts from_zone (Some zone).

Definition exit_event (vehicle_id : string) (ts : datetime)
    (zone : string) (to_zone : option string) : ZoneEvent.t :=
  ZoneEvent.mk "exit" vehicle_id zone ts (Some zone) to_zone.

(** Rules 3 to 6 of the transition engine. *)
Definition transition_events (vehicle_id : string) (ts : datetime)
    (prev_zone new_zone : option string) : list ZoneEvent.t :=
  match prev_zone, new_zone with
  | None, None => []
  | None, Some z => [enter_event vehicle_id ts None z]
  | Some p, None => [exit_event vehicle_id ts p None]
  | Some p, Some z =>
      if decide (p = z) then []
      else [exit_event vehicle_id ts p (Some z); enter_event vehicle_id ts (Some p) z]
  end.

(** The zone recorded for a vehicle, [None] for a vehicle without an
    entry and for one that is outside every zone. *)
Definition zone_of (s : State) (vehicle_id : string) : option string :=
  match VEHICLE_STATE s !! vehicle_id with
  | Some st => VehicleStatus.currentZone st
  | None => None
  end.

(** The last [n] elements of a list, in their order. *)
Definition last_n {A : Type} (n : nat) (l : list A) : list A :=
  drop (length l - n) l.

(** The events that a listing selects: all of them without a filter (an
    empty string is no filter), else those of the vehicle. *)
Definition matching (vehicleId : option string) (log : list ZoneEvent.t)
  : list ZoneEvent.t :=
  match vehicleId with
  | None => log
  | Some v => if decide (v = "") then log else filter (λ e, ZoneEvent.vehicleId e = v) log
  end.

(** The store after a sequence of updates, whatever each of them
    returned or raised. *)
Definition ingest_all (lib : PyMath) (zones : list GeofenceZone.t)
    (updates : list LocationEvent.t) (s : State) : State :=
  foldl (λ s event, (ingest_location lib zones event s).2) s updates.

(** The invariant of the vehicle store: a recorded zone is a zone of the
    catalog. *)
Definition zones_known (zones : list GeofenceZone.t) (s : State) : Prop :=
  ∀ vehicle_id st z,
    VEHICLE_STATE s !! vehicle_id = Some st →
    VehicleStatus.currentZone st = Some z →
    ∃ zone, zone ∈ zones ∧ GeofenceZone.id zone = z.

(** The status that an update writes. *)
Definition status_after (event : LocationEvent.t) (zone : option string) : VehicleStatus.t :=
  VehicleStatus.mk (LocationEvent.vehicleId event) zone
    (LocationEvent.latitude event) (LocationEvent.longitude event)
    (LocationEvent.timestamp event).

(** The events that an update generates. *)
Definition events_after (event : LocationEvent.t) (s : State) (zone : option string)
  : list ZoneEvent.t :=
  transition_events (LocationEvent.vehicleId event) (LocationEvent.timestamp event)
    (zone_of s (LocationEvent.vehicleId event)) zone.

(** The events of a reply, none when the update raised. *)
Definition generated_by (r : result LocationResponse.t) : list ZoneEvent.t :=
  match r with
  | Ok response => LocationResponse.generatedEvents response
  | Raise _ => []
  end.

(** Whether a zone contains a point, as the loop tests it. *)
Definition within (lib : PyMath) (lat lng : float) (zone : GeofenceZone.t) : result bool :=
  distance ← haversine_distance_m lib lat lng
               (GeofenceZone.center_lat zone) (GeofenceZone.center_lng zone);
  mret (distance <=? GeofenceZone.radius_m zone)%float.

(** ** Sampled computations *)

(** [lib] follows the sampled computation [r]: unless [r] left the
    table, [lib] computes [r]. *)
Definition follows {A : Type} (r r_lib : result A) : Prop :=
  r ≠ Raise OverflowError → r_lib = r.

(** ** Binary64 values and the assumptions on the C library *)

(** Zero or finite: not NaN, not infinite. *)
Definition SFreal (x : spec_float) : Prop :=
  match x with
  | S754_zero _ | S754_finite _ _ _ => True
  | _ => False
  end.

(** The range that the validators of [LocationEvent] accept (lines
    41-42); a NaN is in no range. *)
Definition valid_coordinate (lat lon : float) : Prop :=
  ((-90 <=? lat) && (lat <=? 90))%float = true ∧
  ((-180 <=? lon) && (lon <=? 180))%float = true.

(** The library is exact at zero: [sin(0.0)] is [0.0], [0.0 ** 2] is
    [0.0] and [atan2(0.0, 1.0)] is [0.0] (C99, annex F; CPython returns
    the last two without calling the library). *)
Definition exact_at_zero (lib : PyMath) : Prop :=
  math_sin lib 0 = Ok 0%float ∧
  float_pow lib 0 2 = Ok 0%float ∧
  math_atan2 lib 0 1 = Ok 0%float.

(** The cosine of [x] is returned and lies between -1 and 1. *)
Definition cosine_in_unit (lib : PyMath) (x : float) : Prop :=
  ∃ c, math_cos lib x = Ok c ∧ ((-1 <=? c) && (c <=? 1))%float = true.

(** ** Example data *)

(** An update of vehicle V1 at the centre of [airport]. *)
Definition at_airport : LocationEvent.t :=
  LocationEvent.mk "V1" 12.9611%float 77.6387%float 1700000000%Z.

(** Then at the point (0, 0), far from every zone. *)
Definition at_origin : LocationEvent.t :=
  LocationEvent.mk "V1" 0%float 0%float 1700000060%Z.

(** Then at the centre of [downtown]. *)
Definition at_downtown : LocationEvent.t :=
  LocationEvent.mk "V1" 12.9716%float 77.5946%float 1700000120%Z.

(** An update of vehicle V2 at the centre of [downtown]. *)
Definition other_at_downtown : LocationEvent.t :=
  LocationEvent.mk "V2" 12.9716%float 77.5946%float 1700000030%Z.

(** The event that V1 generates when it enters [airport]. *)
Definition entered_airport : ZoneEvent.t :=
  ZoneEvent.mk "enter" "V1" "airport" 1700000000%Z None (Some "airport").

(** An update at the coordinate (-12.97160014, -102.4054), which the
    validators accept; it lies 1.5 cm from the antipode of the centre of
    [downtown], half the way round the globe from every zone. *)
Definition near_antipode (vehicle_id : string) (ts : datetime) : LocationEvent.t :=
  LocationEvent.mk vehicle_id (-12.97160014)%float (-102.4054)%float ts.

(** The first [n] updates of V1 going to and fro between the centre of
    [airport] and the point (0, 0). *)
Definition shuttle (n : nat) : list LocationEvent.t :=
  take n (mjoin (replicate n [at_airport; at_origin])).

(** ** Properties of the log and of the haversine term *)

(** The zone that the log gives for a vehicle: the [toZone] of its last
    event, [None] when it has no event. *)
Definition last_zone_in_log (vehicle_id : string) (log : list ZoneEvent.t) : option string :=
  match last (filter (λ e, ZoneEvent.vehicleId e = vehicle_id) log) with
  | Some e => ZoneEvent.toZone e
  | None => None
  end.

(** An event as the engine writes them: an [enter] into its [toZone] or an
    [exit] from its [fromZone], between two different zones, the zone
    being one of the catalog. *)
Definition event_wellformed (zones : list GeofenceZone.t) (e : ZoneEvent.t) : Prop :=
  ((ZoneEvent.eventType e = "enter" ∧ ZoneEvent.toZone e = Some (ZoneEvent.zoneId e)) ∨
   (ZoneEvent.eventType e = "exit" ∧ ZoneEvent.fromZone e = Some (ZoneEvent.zoneId e))) ∧
  ZoneEvent.fromZone e ≠ ZoneEvent.toZone e ∧
  ∃ zone, zone ∈ zones ∧ GeofenceZone.id zone = ZoneEvent.zoneId e.

(** The value [a] of line 126: the haversine term, before the square
    roots. *)
Definition haversine_term (lib : PyMath) (lat1 lon1 lat2 lon2 : float) : result float :=
  let phi1 := math_radians lat1 in
  let phi2 := math_radians lat2 in
  let d_phi := math_radians (lat2 - lat1) in
  let d_lambda := math_radians (lon2 - lon1) in
  s1 ← math_sin lib (d_phi / 2);
  p1 ← float_pow lib s1 2;
  c1 ← math_cos lib phi1;
  c2 ← math_cos lib phi2;
  s2 ← math_sin lib (d_lambda / 2);
  p2 ← float_pow lib s2 2;
  mret (p1 + c1 * c2 * p2)%float.

(** ** Symmetries of the C library *)

(** The sine is odd: [sin(-x)] is [-sin(x)]. *)
Definition sine_odd (lib : PyMath) : Prop :=
  ∀ x y, math_sin lib x = Ok y → math_sin lib (- x) = Ok (- y)%float.

(** The square does not depend on the sign: [(-x) ** 2] is [x ** 2]. *)
Definition square_even (lib : PyMath) : Prop :=
  ∀ x, float_pow lib (- x) 2 = float_pow lib x 2.

(** The library that knows a table and these two symmetries: the sine of
    [x] is looked up at [x] and then at [-x], a power at the absolute
    value of its base. *)
Definition mirrored (t : Samples) : PyMath :=
  {| math_sin := λ x,
       match sample1 (sin_at t) x with
       | Ok y => Ok y
       | Raise _ =>
           match sample1 (sin_at t) (- x) with
           | Ok y => Ok (- y)%float
           | Raise e => Raise e
           end
       end;
     math_cos := sample1 (cos_at t);
     math_atan2 := sample2 (atan2_at t);
     float_pow := λ x y, sample2 (pow_at t) (abs x) y |}.

(** A table of sines that does not contradict the symmetry. *)
Definition odd_consistent (l : list (float * float)) : Prop :=
  Forall (λ p, match sample1 l (- p.1) with
               | Ok y => y = (- p.2)%float
               | Raise _ => True
               end) l.

(** What CPython 3.11 returns on glibc 2.36 (x86-64) at the arguments of
    the distance from the centre of [downtown] to the centre of
    [airport]. *)
Definition symmetry_samples : Samples :=
  {| sin_at :=
       [ (-0x1.8052bbb7115d8p-14, -0x1.8052bbae0b8b1p-14);
         (0x1.938a11e69efa5p-12, 0x1.938a113f80742p-12) ]%float;
     cos_at :=
       [ (0x1.cfa94c505ac52p-3, 0x1.f2ef3b75f3537p-1);
         (0x1.cf4937a16d00cp-3, 0x1.f2f49f343fbc0p-1) ]%float;
     atan2_at :=
       [ (0x1.94d135f34688ap-12, 0x1.fffffd7fdb013p-1, 0x1.94d1369bfcca3p-12) ]%float;
     pow_at :=
       [ (0x1.8052bbae0b8b1p-14, 2, 0x1.207c26e373dc3p-27);
         (0x1.938a113f80742p-12, 2, 0x1.3e0dfe624406dp-23) ]%float |}.

(** * Python slices *)

Section Slices.
Context {A : Type}.
Implicit Types l : list A.

Lemma slice_from_last_n (N : Z) l :
  (0 < N)%Z → slice_from (- N) l = last_n (Z.to_nat N) l.
Proof.
  intros HN. unfold slice_from, last_n.
  destruct (Z.ltb_spec (- N) 0) as [_|]; [|lia].
  f_equal. lia.
Qed.

Lemma slice_from_zero l : slice_from 0 l = l.
Proof. unfold slice_from. simpl. rewrite Z.min_l by lia. reflexivity. Qed.

Lemma slice_from_nonneg (k : Z) l :
  (0 <= k)%Z → slice_from k l = drop (Z.to_nat k) l.
Proof.
  intros Hk. unfold slice_from.
  destruct (Z.ltb_spec k 0) as [|_]; [lia|].
  destruct (Z.min_spec k (Z.of_nat (length l))) as [[_ ->]|[Hle ->]]; [done|].
  rewrite Nat2Z.id, drop_all. symmetry. apply drop_ge. lia.
Qed.

Lemma last_n_length (n : nat) l : length (last_n n l) = n `min` length l.
Proof. unfold last_n. rewrite length_drop. lia. Qed.

Lemma last_n_suffix (n : nat) l : last_n n l `suffix_of` l.
Proof. apply suffix_drop. Qed.

Lemma last_n_all (n : nat) l : length l ≤ n → last_n n l = l.
Proof. intros H. unfold last_n. replace (length l - n) with 0 by lia. done. Qed.

End Slices.

(** * The event listing *)

Lemma truthy_Some (v : string) : truthy (Some v) = bool_decide (v ≠ "").
Proof.
  unfold truthy. destruct (String.eqb_spec v "") as [->|Hne].
  - by rewrite bool_decide_eq_false_2 by (intros H; by apply H).
  - by rewrite bool_decide_eq_true_2.
Qed.

(** What [list_events] returns, for any filter and any limit: a slice of
    the selected events; the stores are not written. *)
Lemma list_events_slice (vehicleId : option string) (limit : option Z) (s : State) :
  list_events vehicleId limit s =
    (Ok (slice_from (- default 100%Z limit) (matching vehicleId (EVENT_LOG s))), s).
Proof.
  unfold list_events, matching, mbind, handler_bind, EVENT_LOG_read, mret, handler_ret.
  destruct vehicleId as [v|]; [|done].
  rewrite truthy_Some. destruct (decide (v = "")) as [->|Hne].
  - by rewrite bool_decide_eq_false_2 by (intros H; by apply H).
  - rewrite bool_decide_eq_true_2 by done.
    do 3 f_equal. apply list_filter_iff. intros e. split; congruence.
Qed.

Lemma matching_sublist (vehicleId : option string) (log : list ZoneEvent.t) :
  matching vehicleId log `sublist_of` log.
Proof.
  unfold matching. destruct vehicleId as [v|]; [|done].
  destruct (decide _); [done|]. apply sublist_filter.
Qed.

Lemma matching_vehicle (v : string) (log : list ZoneEvent.t) :
  v ≠ "" → Forall (λ e, ZoneEvent.vehicleId e = v) (matching (Some v) log).
Proof.
  intros Hne. unfold matching. rewrite decide_False by done.
  apply Forall_forall. intros e He. by apply list_elem_of_filter in He as [? _].
Qed.

(** C7, as amended: for a positive limit [N], the listing returns the last
    [N] of the selected events (all of them when there are fewer), in
    the order of the log and never more than [N]; the selected events
    are those of the vehicle when the filter is a non-empty string, and
    the whole log when the filter is absent or the empty string. *)
Theorem list_events_window (vehicleId : option string) (N : Z) (s : State) :
  (0 < N)%Z →
  ∃ window,
    list_events vehicleId (Some N) s = (Ok window, s) ∧
    window = last_n (Z.to_nat N) (matching vehicleId (EVENT_LOG s)) ∧
    length window ≤ Z.to_nat N ∧
    window `suffix_of` matching vehicleId (EVENT_LOG s) ∧
    matching vehicleId (EVENT_LOG s) `sublist_of` EVENT_LOG s ∧
    (∀ v, vehicleId = Some v → v ≠ "" →
       matching vehicleId (EVENT_LOG s) = filter (λ e, ZoneEvent.vehicleId e = v) (EVENT_LOG s) ∧
       Forall (λ e, ZoneEvent.vehicleId e = v) window) ∧
    (vehicleId = None ∨ vehicleId = Some "" → matching vehicleId (EVENT_LOG s) = EVENT_LOG s).
Proof.
  intros HN. eexists. split; [apply list_events_slice|]. simpl.
  rewrite slice_from_last_n by done.
  split; [done|]. split; [rewrite last_n_length; lia|].
  split; [apply last_n_suffix|]. split; [apply matching_sublist|]. split.
  - intros v -> Hne. split.
    + unfold matching. by rewrite decide_False.
    + eapply Forall_forall. intros e He.
      pose proof (matching_vehicle v (EVENT_LOG s) Hne) as Hall.
      rewrite Forall_forall in Hall. apply Hall.
      destruct (last_n_suffix (Z.to_nat N) (matching (Some v) (EVENT_LOG s))) as [k Hk].
      rewrite Hk. apply elem_of_app. by right.
  - intros [->| ->]; done.
Qed.

(** X17: a listing without a limit is the listing with limit 100; it
    returns the last 100 of the selected events, at most 100 events. *)
Theorem list_events_default_limit (vehicleId : option string) (s : State) :
  list_events vehicleId None s = list_events vehicleId (Some 100%Z) s ∧
  ∃ window,
    list_events vehicleId None s = (Ok window, s) ∧
    window = last_n 100 (matching vehicleId (EVENT_LOG s)) ∧
    length window ≤ 100.
Proof.
  split; [by rewrite !list_events_slice|].
  eexists. split; [apply list_events_slice|]. simpl.
  rewrite slice_from_last_n by lia.
  split; [done|]. rewrite last_n_length. lia.
Qed.

(** X13: a limit that is not positive does not cap the listing.  With
    limit 0 the listing returns every selected event, and with a
    negative limit [- k] all but the first [k]. *)
Lemma list_events_nonpositive_limit (vehicleId : option string) (k : Z) (s : State) :
  (0 <= k)%Z →
  list_events vehicleId (Some (- k)%Z) s =
    (Ok (drop (Z.to_nat k) (matching vehicleId (EVENT_LOG s))), s).
Proof.
  intros Hk. rewrite list_events_slice. simpl. rewrite Z.opp_involutive.
  by rewrite slice_from_nonneg.
Qed.

(** * The transition engine *)

Section Engine.
Variable lib : PyMath.
Variable zones : list GeofenceZone.t.

(** When the resolver returns, the update returns: it appends the
    events of the transition to the log and writes the new status. *)
Lemma ingest_location_returns (event : LocationEvent.t) (s : State) (new_zone : option string) :
  find_zone_for_point lib zones (LocationEvent.latitude event) (LocationEvent.longitude event)
    = Ok new_zone →
  ingest_location lib zones event s =
    (Ok (LocationResponse.mk (status_after event new_zone) (events_after event s new_zone)),
     {| VEHICLE_STATE :=
          <[LocationEvent.vehicleId event := status_after event new_zone]> (VEHICLE_STATE s);
        EVENT_LOG := EVENT_LOG s ++ events_after event s new_zone |}).
Proof.
  intros Hzone.
  unfold ingest_location, events_after, transition_events, zone_of, status_after.
  unfold mbind, handler_bind, lift. rewrite Hzone.
  unfold VEHICLE_STATE_get.
  destruct (VEHICLE_STATE s !! LocationEvent.vehicleId event) as [st|];
    [destruct (VehicleStatus.currentZone st) as [p|]|];
    destruct new_zone as [z|]; simpl.
  - destruct (decide (p = z)) as [->|Hne].
    + rewrite bool_decide_eq_false_2 by (intros H; by apply H).
      simpl. by rewrite app_nil_r.
    + rewrite bool_decide_eq_true_2 by congruence. done.
  - done.
  - done.
  - by rewrite app_nil_r.
  - done.
  - by rewrite app_nil_r.
Qed.

(** When the resolver raises, the update raises the same exception and
    has written nothing. *)
Lemma ingest_location_raises (event : LocationEvent.t) (s : State) (e : exn) :
  find_zone_for_point lib zones (LocationEvent.latitude event) (LocationEvent.longitude event)
    = Raise e →
  ingest_location lib zones event s = (Raise e, s).
Proof.
  intros Hzone. unfold ingest_location, mbind, handler_bind, lift. by rewrite Hzone.
Qed.

Lemma transition_events_length (vehicle_id : string) (ts : datetime) (p z : option string) :
  length (transition_events vehicle_id ts p z) ≤ 2.
Proof.
  unfold transition_events. destruct p, z; try destruct (decide _); simpl; lia.
Qed.

Lemma transition_events_same (vehicle_id : string) (ts : datetime) (z : option string) :
  transition_events vehicle_id ts z z = [].
Proof.
  unfold transition_events. destruct z; [|done]. by rewrite decide_True.
Qed.

End Engine.

(** * The membership resolver *)

Section Resolver.
Variable lib : PyMath.

(** A zone that the loop returns is a zone of the list. *)
Lemma for_zone_in_member (zs : list GeofenceZone.t) (lat lng : float) (z : string) :
  for_zone_in lib zs lat lng = Ok (Some z) →
  ∃ zone, zone ∈ zs ∧ GeofenceZone.id zone = z.
Proof.
  induction zs as [|zone rest IH]; simpl; [done|].
  unfold mbind, result_bind.
  destruct (haversine_distance_m lib lat lng _ _) as [d|e]; [|done].
  destruct (d <=? GeofenceZone.radius_m zone)%float.
  - intros [= <-]. exists zone. split; [left|done].
  - intros H. destruct (IH H) as (zone' & Hin & Hid).
    exists zone'. split; [by right|done].
Qed.

End Resolver.

(** * Claims on the transition engine *)

Section Claims.
Variable lib : PyMath.
Variable zones : list GeofenceZone.t.

(** X15: when the resolver returns, the update returns, and the events
    that it generates are decided by the zone recorded for the vehicle
    ([prevZone]) and the zone that the resolver returned ([newZone]):
    none when they are equal; one [enter] when the vehicle was in no
    zone; one [exit] when it is in no zone now; [exit] then [enter], both
    from [prevZone] to [newZone] and with the timestamp of the update,
    when it changed zone; never more than two. *)
Theorem ingest_location_generated_events
    (event : LocationEvent.t) (s : State) (newZone : option string) :
  find_zone_for_point lib zones (LocationEvent.latitude event) (LocationEvent.longitude event)
    = Ok newZone →
  let vehicle_id := LocationEvent.vehicleId event in
  let ts := LocationEvent.timestamp event in
  let prevZone := zone_of s vehicle_id in
  ∃ response s',
    ingest_location lib zones event s = (Ok response, s') ∧
    let generated := LocationResponse.generatedEvents response in
    (prevZone = newZone → generated = []) ∧
    (∀ z, prevZone = None → newZone = Some z →
       generated = [ZoneEvent.mk "enter" vehicle_id z ts None (Some z)]) ∧
    (∀ p, prevZone = Some p → newZone = None →
       generated = [ZoneEvent.mk "exit" vehicle_id p ts (Some p) None]) ∧
    (∀ p z, prevZone = Some p → newZone = Some z → p ≠ z →
       generated = [ZoneEvent.mk "exit" vehicle_id p ts (Some p) (Some z);
                    ZoneEvent.mk "enter" vehicle_id z ts (Some p) (Some z)]) ∧
    length generated ≤ 2.
Proof.
  intros Hzone vehicle_id ts prevZone.
  do 2 eexists. split; [by apply ingest_location_returns|].
  simpl. unfold events_after. fold vehicle_id ts prevZone.
  repeat split.
  - intros ->. apply transition_events_same.
  - by intros z -> ->.
  - by intros p -> ->.
  - intros p z -> -> Hne. unfold transition_events. by rewrite decide_False.
  - apply transition_events_length.
Qed.

(** X16: when the resolver returns, the update writes the entry of its
    vehicle, with the new coordinate, the zone that the resolver returned
    and the timestamp, whatever the store held for that vehicle (nothing,
    for a first update) and whether or not events are generated. *)
Theorem ingest_location_overwrites_status
    (event : LocationEvent.t) (s : State) (newZone : option string) :
  find_zone_for_point lib zones (LocationEvent.latitude event) (LocationEvent.longitude event)
    = Ok newZone →
  ∃ response s',
    ingest_location lib zones event s = (Ok response, s') ∧
    VEHICLE_STATE s' !! LocationEvent.vehicleId event =
      Some (VehicleStatus.mk (LocationEvent.vehicleId event) newZone
              (LocationEvent.latitude event) (LocationEvent.longitude event)
              (LocationEvent.timestamp event)) ∧
    LocationResponse.status response =
      VehicleStatus.mk (LocationEvent.vehicleId event) newZone
        (LocationEvent.latitude event) (LocationEvent.longitude event)
        (LocationEvent.timestamp event).
Proof.
  intros Hzone. do 2 eexists. split; [by apply ingest_location_returns|].
  simpl. split; [|done]. apply lookup_insert_eq.
Qed.

(** An update does not touch the entries of the other vehicles. *)
Lemma ingest_location_other_vehicle (event : LocationEvent.t) (s : State) (v : string) :
  v ≠ LocationEvent.vehicleId event →
  VEHICLE_STATE (ingest_location lib zones event s).2 !! v = VEHICLE_STATE s !! v.
Proof.
  intros Hv.
  destruct (find_zone_for_point lib zones (LocationEvent.latitude event)
              (LocationEvent.longitude event)) as [z|e] eqn:Hzone.
  - rewrite (ingest_location_returns _ _ _ _ _ Hzone). simpl. by rewrite lookup_insert_ne.
  - by rewrite (ingest_location_raises _ _ _ _ _ Hzone).
Qed.

(** C8: an update for a vehicle leaves the entries of the other vehicles
    as they were, keeps every event of the log in its place, and appends
    to the log the events that it generated, in their order. *)
Theorem ingest_location_frame (event : LocationEvent.t) (s : State) :
  let out := ingest_location lib zones event s in
  (∀ v, v ≠ LocationEvent.vehicleId event →
     VEHICLE_STATE out.2 !! v = VEHICLE_STATE s !! v) ∧
  EVENT_LOG out.2 = EVENT_LOG s ++ generated_by out.1 ∧
  (∀ i e, EVENT_LOG s !! i = Some e → EVENT_LOG out.2 !! i = Some e).
Proof.
  intros out. subst out.
  destruct (find_zone_for_point lib zones (LocationEvent.latitude event)
              (LocationEvent.longitude event)) as [z|e] eqn:Hzone.
  - rewrite (ingest_location_returns _ _ _ _ _ Hzone). simpl.
    split; [|split; [done|]].
    + intros v Hv. by rewrite lookup_insert_ne.
    + intros i e Hi. by apply lookup_app_l_Some.
  - rewrite (ingest_location_raises _ _ _ _ _ Hzone). simpl.
    split; [done|]. split; [by rewrite app_nil_r|done].
Qed.

(** What holds of every entry of the store and of the status that an
    update writes holds of every entry after the update. *)
Lemma ingest_location_entries (P : VehicleStatus.t → Prop)
    (event : LocationEvent.t) (s : State) :
  (∀ z, find_zone_for_point lib zones (LocationEvent.latitude event)
          (LocationEvent.longitude event) = Ok z → P (status_after event z)) →
  (∀ v st, VEHICLE_STATE s !! v = Some st → P st) →
  ∀ v st, VEHICLE_STATE (ingest_location lib zones event s).2 !! v = Some st → P st.
Proof.
  intros Hnew Hold v st.
  destruct (find_zone_for_point lib zones (LocationEvent.latitude event)
              (LocationEvent.longitude event)) as [z|e] eqn:Hzone.
  - rewrite (ingest_location_returns _ _ _ _ _ Hzone). simpl.
    destruct (decide (LocationEvent.vehicleId event = v)) as [<-|Hne].
    + rewrite lookup_insert_eq. intros [= <-]. by apply Hnew.
    + rewrite lookup_insert_ne by done. apply Hold.
  - rewrite (ingest_location_raises _ _ _ _ _ Hzone). apply Hold.
Qed.

(** C6: an update keeps the invariant that every zone recorded in the
    vehicle store is a zone of the catalog. *)
Theorem ingest_location_zones_known (event : LocationEvent.t) (s : State) :
  zones_known zones s →
  zones_known zones (ingest_location lib zones event s).2.
Proof.
  intros Hinv v st z Hst.
  revert z. pattern st. revert v st Hst. apply ingest_location_entries.
  - intros new_zone Hzone z. simpl. intros ->. by eapply for_zone_in_member.
  - intros v st Hst z. by apply (Hinv v).
Qed.

(** The invariant holds in every state that updates lead to from a state
    where it holds, the empty stores for one. *)
Lemma ingest_all_zones_known (updates : list LocationEvent.t) (s : State) :
  zones_known zones s → zones_known zones (ingest_all lib zones updates s).
Proof.
  revert s. induction updates as [|event updates IH]; intros s Hs; [done|].
  change (ingest_all lib zones (event :: updates) s)
    with (ingest_all lib zones updates (ingest_location lib zones event s).2).
  apply IH. intros v st z Hst.
  revert z. pattern st. revert v st Hst. apply ingest_location_entries.
  - intros new_zone Hzone z. simpl. intros ->. by eapply for_zone_in_member.
  - intros v st Hst z. by apply (Hs v).
Qed.

(** Updates of other vehicles do not change the zone recorded for a
    vehicle. *)
Lemma ingest_all_zone_of (others : list LocationEvent.t) (v : string) (s : State) :
  Forall (λ o, LocationEvent.vehicleId o ≠ v) others →
  VEHICLE_STATE (ingest_all lib zones others s) !! v = VEHICLE_STATE s !! v.
Proof.
  intros Hall. revert s. induction Hall as [|o others Ho _ IH]; intros s; [done|].
  change (ingest_all lib zones (o :: others) s)
    with (ingest_all lib zones others (ingest_location lib zones o s).2).
  rewrite IH. by apply ingest_location_other_vehicle.
Qed.

(** C5: the same update sent twice, with no update of that vehicle in
    between (updates of other vehicles may come in between), generates
    no event the second time: the second call returns an empty list of
    events when the first call returned, raises as the first call when
    that one raised, and leaves the log as it was. *)
Theorem ingest_location_repeated
    (event : LocationEvent.t) (others : list LocationEvent.t) (s : State) :
  Forall (λ o, LocationEvent.vehicleId o ≠ LocationEvent.vehicleId event) others →
  let first := ingest_location lib zones event s in
  let between := ingest_all lib zones others first.2 in
  let second := ingest_location lib zones event between in
  EVENT_LOG second.2 = EVENT_LOG between ∧
  (∀ r1, first.1 = Ok r1 →
     ∃ r2, second.1 = Ok r2 ∧ LocationResponse.generatedEvents r2 = []) ∧
  (∀ e, first.1 = Raise e → second.1 = Raise e).
Proof.
  intros Hothers first between second. subst first between second.
  destruct (find_zone_for_point lib zones (LocationEvent.latitude event)
              (LocationEvent.longitude event)) as [z|e] eqn:Hzone.
  - rewrite (ingest_location_returns _ _ _ s _ Hzone). simpl.
    set (s1 := {| VEHICLE_STATE := _; EVENT_LOG := _ |}).
    rewrite (ingest_location_returns _ _ _ (ingest_all lib zones others s1) _ Hzone). simpl.
    assert (events_after event (ingest_all lib zones others s1) z = []) as ->.
    { unfold events_after, zone_of. rewrite ingest_all_zone_of by done.
      subst s1. simpl. rewrite lookup_insert_eq. simpl.
      apply transition_events_same. }
    split; [by rewrite app_nil_r|]. split; [|done].
    intros r1 _. by eexists.
  - rewrite (ingest_location_raises _ _ _ s _ Hzone). simpl.
    rewrite (ingest_location_raises _ _ _ _ _ Hzone). simpl.
    split; [done|]. split; [done|]. by intros e' [= ->].
Qed.

(** A vehicle that sent no update has no entry in the store. *)
Lemma ingest_all_unknown (updates : list LocationEvent.t) (v : string) :
  Forall (λ u, LocationEvent.vehicleId u ≠ v) updates →
  VEHICLE_STATE (ingest_all lib zones updates initial_state) !! v = None.
Proof. intros Hall. by rewrite ingest_all_zone_of. Qed.

(** C9: the status of a vehicle that never sent an update is not found
    (HTTP 404), and the query leaves the vehicle store and the event log
    as they were. *)
Theorem get_vehicle_status_unknown (updates : list LocationEvent.t) (v : string) :
  Forall (λ u, LocationEvent.vehicleId u ≠ v) updates →
  let s := ingest_all lib zones updates initial_state in
  get_vehicle_status v s = (Raise (HTTPException 404 "Vehicle not found"), s).
Proof.
  intros Hall s. unfold get_vehicle_status, mbind, handler_bind, VEHICLE_STATE_get.
  subst s. by rewrite ingest_all_unknown.
Qed.

End Claims.

(** * Sampled libraries *)

Section Sampling.
Variable lib : PyMath.
Variable t : Samples.
Hypothesis lib_agrees : agrees lib t.

Lemma sample1_raises (l : list (float * float)) (x : float) (e : exn) :
  sample1 l x = Raise e → e = OverflowError.
Proof.
  induction l as [|[x' y] l IH]; simpl; [congruence|].
  destruct (Leibniz.eqb x' x); [done|apply IH].
Qed.

Lemma sample2_raises (l : list (float * float * float)) (x1 x2 : float) (e : exn) :
  sample2 l x1 x2 = Raise e → e = OverflowError.
Proof.
  induction l as [|[[x1' x2'] y] l IH]; simpl; [congruence|].
  destruct (Leibniz.eqb x1' x1 && Leibniz.eqb x2' x2); [done|apply IH].
Qed.

Lemma sample1_returns (f : float → result float) (l : list (float * float)) (x y : float) :
  Forall (λ p, f p.1 = Ok p.2) l → sample1 l x = Ok y → f x = Ok y.
Proof.
  induction 1 as [|[x' y'] l Hhd _ IH]; simpl; [done|].
  destruct (Leibniz.eqb x' x) eqn:Heq; [|apply IH].
  apply Leibniz.eqb_spec in Heq as ->. by intros [= <-].
Qed.

Lemma sample2_returns (f : float → float → result float)
    (l : list (float * float * float)) (x1 x2 y : float) :
  Forall (λ p, f p.1.1 p.1.2 = Ok p.2) l → sample2 l x1 x2 = Ok y → f x1 x2 = Ok y.
Proof.
  induction 1 as [|[[x1' x2'] y'] l Hhd _ IH]; simpl; [done|].
  destruct (Leibniz.eqb x1' x1 && Leibniz.eqb x2' x2) eqn:Heq; [|apply IH].
  apply andb_prop in Heq as [H1 H2].
  apply Leibniz.eqb_spec in H1 as ->. apply Leibniz.eqb_spec in H2 as ->.
  by intros [= <-].
Qed.

Lemma follows_refl {A : Type} (r : result A) : follows r r.
Proof. by intros _. Qed.

Lemma follows_bind {A B : Type} (r r_lib : result A) (k k_lib : A → result B) :
  follows r r_lib → (∀ a, follows (k a) (k_lib a)) →
  follows (r ≫= k) (r_lib ≫= k_lib).
Proof.
  intros Hr Hk. destruct r as [a|e]; unfold follows in *; simpl.
  - rewrite Hr by done. apply Hk.
  - intros He. rewrite Hr; [done|]. intros [= ->]. by apply He.
Qed.

Lemma follows_sample1 (f : float → result float) (l : list (float * float)) (x : float) :
  Forall (λ p, f p.1 = Ok p.2) l → follows (sample1 l x) (f x).
Proof.
  intros Hl Hr. destruct (sample1 l x) as [y|e] eqn:Hs.
  - by eapply sample1_returns.
  - apply sample1_raises in Hs as ->. by destruct Hr.
Qed.

Lemma follows_sample2 (f : float → float → result float)
    (l : list (float * float * float)) (x1 x2 : float) :
  Forall (λ p, f p.1.1 p.1.2 = Ok p.2) l → follows (sample2 l x1 x2) (f x1 x2).
Proof.
  intros Hl Hr. destruct (sample2 l x1 x2) as [y|e] eqn:Hs.
  - by eapply sample2_returns.
  - apply sample2_raises in Hs as ->. by destruct Hr.
Qed.

(** A distance computed from sampled values is the distance that [lib]
    computes. *)
Lemma haversine_distance_m_sampled (lat1 lon1 lat2 lon2 : float) :
  follows (haversine_distance_m (sampled t) lat1 lon1 lat2 lon2)
          (haversine_distance_m lib lat1 lon1 lat2 lon2).
Proof.
  destruct lib_agrees as (Hsin & Hcos & Hatan2 & Hpow).
  unfold haversine_distance_m.
  repeat first
    [ apply follows_refl
    | apply follows_bind; [|intros ?]
    | by apply follows_sample1
    | by apply follows_sample2 ].
Qed.

(** So is the zone resolved from sampled values. *)
Lemma for_zone_in_sampled (zs : list GeofenceZone.t) (lat lng : float) :
  follows (for_zone_in (sampled t) zs lat lng) (for_zone_in lib zs lat lng).
Proof.
  induction zs as [|zone rest IH]; simpl; [apply follows_refl|].
  apply follows_bind; [apply haversine_distance_m_sampled|].
  intros d. destruct (d <=? GeofenceZone.radius_m zone)%float; [apply follows_refl|apply IH].
Qed.

End Sampling.

(** * Claims on the membership resolver *)

(** X2: what the loop does on any list of zones.  It returns the id of
    the first zone, in the order of the list, whose distance is computed
    and at most the radius, every zone before it having a distance that
    is computed and larger; it returns [None] when this holds of every
    zone; and it raises when the distance to a zone raises before any
    zone is found. *)
Lemma for_zone_in_first_match (lib : PyMath) (zs : list GeofenceZone.t) (lat lng : float) :
  match for_zone_in lib zs lat lng with
  | Ok (Some zid) =>
      ∃ i zone, zs !! i = Some zone ∧ GeofenceZone.id zone = zid ∧
        within lib lat lng zone = Ok true ∧
        ∀ j zj, j < i → zs !! j = Some zj → within lib lat lng zj = Ok false
  | Ok None => ∀ zone, zone ∈ zs → within lib lat lng zone = Ok false
  | Raise e =>
      ∃ i zone, zs !! i = Some zone ∧ within lib lat lng zone = Raise e ∧
        ∀ j zj, j < i → zs !! j = Some zj → within lib lat lng zj = Ok false
  end.
Proof.
  induction zs as [|zone rest IH]; simpl.
  - intros zone Hin. by apply elem_of_nil in Hin.
  - unfold mbind, result_bind.
    destruct (haversine_distance_m lib lat lng _ _) as [d|e] eqn:Hd.
    + destruct (d <=? GeofenceZone.radius_m zone)%float eqn:Hle.
      * exists 0, zone. repeat split.
        -- unfold within. rewrite Hd. simpl. by rewrite Hle.
        -- intros j zj Hj. lia.
      * assert (within lib lat lng zone = Ok false) as Hzone.
        { unfold within. rewrite Hd. simpl. by rewrite Hle. }
        destruct (for_zone_in lib rest lat lng) as [[zid|]|e].
        -- destruct IH as (i & z & Hi & Hid & Hin & Hbefore).
           exists (S i), z. repeat split; try done.
           intros [|j] zj Hj Hzj; simpl in Hzj; [by injection Hzj as <-|].
           eapply Hbefore; [|done]. lia.
        -- intros z Hz. apply elem_of_cons in Hz as [->|Hz]; [done|by apply IH].
        -- destruct IH as (i & z & Hi & Hin & Hbefore).
           exists (S i), z. repeat split; try done.
           intros [|j] zj Hj Hzj; simpl in Hzj; [by injection Hzj as <-|].
           eapply Hbefore; [|done]. lia.
    + exists 0, zone. repeat split.
      * unfold within. by rewrite Hd.
      * intros j zj Hj. lia.
Qed.

(** The two distances that the loop asks for at the coordinate
    (-12.97160014, -102.4054): to [airport], and to [downtown], whose
    antipode is 1.5 cm away; there the haversine term [a] exceeds 1. *)
Example distances_near_antipode :
  haversine_distance_m (sampled near_antipode_samples)
    (-12.97160014) (-102.4054) 12.9611 77.6387 = Ok 0x1.3154b7913cd4cp+24%float ∧
  haversine_distance_m (sampled near_antipode_samples)
    (-12.97160014) (-102.4054) 12.9716 77.5946 = Raise ValueError ∧
  (0x1.9cc2e9119f8b5p-5 + 0x1.f2ef3b713d354p-1 * 0x1.f2ef3b75f3537p-1 * 1
     = 0x1.0000000000001p+0)%float ∧
  math_sqrt (1 - 0x1.0000000000001p+0) = Raise ValueError.
Proof. by vm_compute. Qed.

(** The sampled squares are the products that binary64 computes. *)
Example sampled_squares :
  Forall (λ p, p.1.2 = 2%float ∧ (p.1.1 * p.1.1)%float = p.2) (pow_at glibc_samples).
Proof. repeat (constructor; [by vm_compute|]). constructor. Qed.

(** The resolver at that coordinate, on a C library that returns the
    sampled values. *)
Lemma for_zone_in_near_antipode (lib : PyMath) :
  agrees lib near_antipode_samples →
  for_zone_in lib ZONES (-12.97160014) (-102.4054) = Raise ValueError.
Proof.
  intros Hlib. rewrite (for_zone_in_sampled lib near_antipode_samples Hlib); by vm_compute.
Qed.

(** C2 fails on the code.  On a C library that returns the sampled
    values, the resolver raises [ValueError] at the valid coordinate
    (-12.97160014, -102.4054): the distance to [airport] is computed (about
    20010 km), and for [downtown] the haversine term [a] is rounded to
    1.0000000000000002, so [math.sqrt(1 - a)] has a negative argument.  No
    zone contains the point, and the resolver ought to return [None]. *)
Theorem find_zone_for_point_raises (lib : PyMath) :
  agrees lib near_antipode_samples →
  find_zone_for_point lib ZONES (-12.97160014) (-102.4054) = Raise ValueError.
Proof.
  intros Hlib. unfold find_zone_for_point.
  rewrite (for_zone_in_sampled lib near_antipode_samples Hlib).
  - by vm_compute.
  - by vm_compute.
Qed.

(** The update at that coordinate raises as well, and writes nothing. *)
Lemma ingest_location_near_antipode
    (lib : PyMath) (vehicle_id : string) (ts : datetime) (s : State) :
  agrees lib near_antipode_samples →
  ingest_location lib ZONES
    (LocationEvent.mk vehicle_id (-12.97160014) (-102.4054) ts) s = (Raise ValueError, s).
Proof.
  intros Hlib. apply ingest_location_raises. simpl.
  unfold find_zone_for_point. by apply for_zone_in_near_antipode.
Qed.

(** C1 fails on the code, where the resolver raises.  A vehicle recorded
    in a zone [p] reports the coordinate (-12.97160014, -102.4054), which
    lies in no zone: the rules ask for one [exit] event, from [p] to no
    zone.  On a C library that returns the sampled values the update
    raises [ValueError] instead; it generates no event and leaves the log
    as it was. *)
Theorem ingest_location_near_antipode_no_events
    (lib : PyMath) (vehicle_id p : string) (ts : datetime) (s : State) :
  agrees lib near_antipode_samples →
  zone_of s vehicle_id = Some p →
  let event := near_antipode vehicle_id ts in
  let run := ingest_location lib ZONES event s in
  run = (Raise ValueError, s) ∧
  generated_by run.1 = [] ∧
  EVENT_LOG run.2 = EVENT_LOG s ∧
  transition_events vehicle_id ts (zone_of s vehicle_id) None =
    [ZoneEvent.mk "exit" vehicle_id p ts (Some p) None].
Proof.
  intros Hlib Hprev event run.
  assert (run = (Raise ValueError, s)) as Hrun
    by (by apply ingest_location_near_antipode).
  rewrite Hrun, Hprev. done.
Qed.

(** C4 fails on the code, where the resolver raises.  On a C library
    that returns the sampled values the update at the coordinate
    (-12.97160014, -102.4054) raises [ValueError] before it writes: the
    entry of the vehicle is the one that the store held, without the
    coordinate and the timestamp of the update, and a vehicle that had no
    entry is given none, so that its status is still not found. *)
Theorem ingest_location_near_antipode_no_write
    (lib : PyMath) (vehicle_id : string) (ts : datetime) (s : State) :
  agrees lib near_antipode_samples →
  let event := near_antipode vehicle_id ts in
  let run := ingest_location lib ZONES event s in
  run.1 = Raise ValueError ∧
  VEHICLE_STATE run.2 !! vehicle_id = VEHICLE_STATE s !! vehicle_id ∧
  (VEHICLE_STATE s !! vehicle_id = None →
     get_vehicle_status vehicle_id run.2 =
       (Raise (HTTPException 404 "Vehicle not found"), run.2)) ∧
  (∀ st, VEHICLE_STATE s !! vehicle_id = Some st →
     VehicleStatus.lastUpdated st ≠ ts →
     ∀ newZone, VEHICLE_STATE run.2 !! vehicle_id ≠ Some (status_after event newZone)).
Proof.
  intros Hlib event run.
  assert (run = (Raise ValueError, s)) as Hrun
    by (by apply ingest_location_near_antipode).
  rewrite Hrun. simpl. repeat split.
  - intros Hnone. unfold get_vehicle_status, mbind, handler_bind, VEHICLE_STATE_get.
    by rewrite Hnone.
  - intros st Hst Hts newZone. rewrite Hst. intros [= ->]. by apply Hts.
Qed.

(** * Binary64 arithmetic *)

Section Rounding.
Local Open Scope Z_scope.

Lemma digits2_pos_bound (p : positive) (k : Z) :
  Z.pos p < 2 ^ k → 0 <= k → Z.pos (digits2_pos p) <= k.
Proof.
  revert k. induction p as [p IH|p IH|]; intros k Hp Hk; simpl.
  - assert (1 <= k) by (destruct (Z.eq_dec k 0) as [->|]; [simpl in Hp; lia|lia]).
    replace k with (Z.succ (k - 1)) in Hp by lia. rewrite Z.pow_succ_r in Hp by lia.
    specialize (IH (k - 1)). lia.
  - assert (1 <= k) by (destruct (Z.eq_dec k 0) as [->|]; [simpl in Hp; lia|lia]).
    replace k with (Z.succ (k - 1)) in Hp by lia. rewrite Z.pow_succ_r in Hp by lia.
    specialize (IH (k - 1)). lia.
  - destruct (Z.eq_dec k 0) as [->|]; [simpl in Hp; lia|lia].
Qed.

Lemma Zdigits2_bound (m k : Z) : 0 <= m < 2 ^ k → 0 <= k → Zdigits2 m <= k.
Proof.
  intros [Hm Hlt] Hk. destruct m as [|p|p]; simpl; [lia| |lia].
  by apply digits2_pos_bound.
Qed.

Lemma digits2_pos_lt (p : positive) : Z.pos p < 2 ^ Z.pos (digits2_pos p).
Proof.
  induction p as [p IH|p IH|]; cbn [digits2_pos]; [| |done].
  - rewrite Pos2Z.inj_succ, Z.pow_succ_r by lia. lia.
  - rewrite Pos2Z.inj_succ, Z.pow_succ_r by lia. lia.
Qed.

Lemma shr_1_bounds (mrs : shr_record) (M : Z) :
  0 <= shr_m mrs <= M → 0 <= shr_m (shr_1 mrs) <= M.
Proof. destruct mrs as [[|[p|p|]|p] r s]; simpl; lia. Qed.

Lemma iter_pos_shr_1_bounds (p : positive) (mrs : shr_record) (M : Z) :
  0 <= shr_m mrs <= M → 0 <= shr_m (SpecFloat.iter_pos shr_1 p mrs) <= M.
Proof.
  revert mrs. induction p as [p IH|p IH|]; intros mrs H; simpl.
  - apply IH, IH. by apply shr_1_bounds.
  - by apply IH, IH.
  - by apply shr_1_bounds.
Qed.

Lemma shr_fexp_bounds (m e : Z) (l : location) (k : Z) :
  0 <= m < 2 ^ k → 0 <= k →
  0 <= shr_m (shr_fexp prec emax m e l).1 <= m ∧
  (shr_fexp prec emax m e l).2 <= Z.max e (Z.max (k + e - 53) (-1074)).
Proof.
  intros Hm Hk. unfold shr_fexp, shr.
  assert (shr_m (shr_record_of_loc m l) = m) as Hrec by (by destruct l as [|[]]).
  pose proof (Zdigits2_bound m k Hm Hk) as Hd.
  assert (fexp prec emax (Zdigits2 m + e) <= Z.max (k + e - 53) (-1074)) as Hf.
  { unfold fexp, emin, prec, emax. lia. }
  destruct (fexp prec emax (Zdigits2 m + e) - e) as [|p|p] eqn:Hn; simpl.
  - rewrite Hrec. lia.
  - split; [apply iter_pos_shr_1_bounds; rewrite Hrec; lia|]. lia.
  - rewrite Hrec. lia.
Qed.

Lemma round_nearest_even_bounds (m : Z) (l : location) :
  0 <= m → m <= round_nearest_even m l <= m + 1.
Proof. intros Hm. destruct l as [|[]]; simpl; try destruct (Z.even m); lia. Qed.

(** A product of two numbers below 1 in magnitude is rounded to zero or
    to a finite number. *)
Lemma binary_round_aux_small (sx : bool) (mx ex : Z) (lx : location) :
  0 <= mx < 2 ^ 106 → ex <= -104 →
  SFreal (binary_round_aux prec emax sx mx ex lx).
Proof.
  intros Hm He. unfold binary_round_aux.
  pose proof (shr_fexp_bounds mx ex lx 106 Hm ltac:(lia)) as [Hm1 He1].
  destruct (shr_fexp prec emax mx ex lx) as [mrs1 e1]. cbn [fst snd] in Hm1, He1.
  pose proof (round_nearest_even_bounds (shr_m mrs1) (loc_of_shr_record mrs1) ltac:(lia)) as Hr.
  set (m1 := round_nearest_even _ _) in *.
  assert (0 <= m1 < 2 ^ 107) as Hm1'.
  { split; [lia|]. change (2 ^ 107) with (2 * 2 ^ 106). lia. }
  pose proof (shr_fexp_bounds m1 e1 loc_Exact 107 Hm1' ltac:(lia)) as [Hm2 He2].
  destruct (shr_fexp prec emax m1 e1 loc_Exact) as [mrs2 e2]. cbn [fst snd] in Hm2, He2.
  destruct (shr_m mrs2) as [|p|p]; [done| |lia].
  destruct (Z.leb_spec e2 (emax - prec)); [done|]. unfold emax, prec in *. lia.
Qed.
End Rounding.

Section Binary64.
Local Open Scope float_scope.

(** A float between two finite floats is zero or finite. *)
Lemma between_real (x lo hi : float) :
  SFreal (Prim2SF lo) → SFreal (Prim2SF hi) →
  (lo <=? x) && (x <=? hi) = true → SFreal (Prim2SF x).
Proof.
  intros Hlo Hhi [H1 H2]%andb_prop. revert H1 H2.
  rewrite !FloatAxioms.leb_spec. unfold SFleb, SFcompare.
  destruct (Prim2SF x) as [s|[]| |s m e], (Prim2SF lo) as [?|[]| |[] ? ?],
    (Prim2SF hi) as [?|[]| |[] ? ?]; done.
Qed.

Lemma sub_diag (x : float) : SFreal (Prim2SF x) → x - x = 0.
Proof.
  intros Hx. apply Prim2SF_inj. rewrite FloatAxioms.sub_spec.
  change (Prim2SF 0) with (S754_zero false).
  destruct (Prim2SF x) as [[]| | |s m e]; try done.
  unfold SF64sub, SFsub. by rewrite Z.sub_diag.
Qed.

(** A float of magnitude at most 1: its mantissa has at most 53 bits and
    its exponent is at most -52. *)
Lemma unit_float (c : float) :
  (-1 <=? c) && (c <=? 1) = true →
  match Prim2SF c with
  | S754_zero _ => True
  | S754_finite _ m e => (Z.pos m < 2 ^ 53 ∧ e <= -52)%Z
  | _ => False
  end.
Proof.
  intros [H1 H2]%andb_prop. revert H1 H2.
  pose proof (Prim2SF_valid c) as Hvalid. revert Hvalid.
  rewrite !FloatAxioms.leb_spec.
  change (Prim2SF (-1)) with (S754_finite true 4503599627370496 (-52)).
  change (Prim2SF 1) with (S754_finite false 4503599627370496 (-52)).
  destruct (Prim2SF c) as [s|[]| |s m e]; try done.
  unfold valid_binary, bounded, canonical_mantissa, fexp, emin, FloatOps.prec, emax.
  intros [Hcan _]%andb_prop. apply Z.eqb_eq in Hcan.
  intros Hlo Hhi. split.
  - pose proof (digits2_pos_lt m) as Hm.
    assert (Z.pos (digits2_pos m) <= 53)%Z as Hd by lia.
    eapply Z.lt_le_trans; [exact Hm|]. by apply Z.pow_le_mono_r.
  - unfold SFleb, SFcompare in Hlo, Hhi. destruct s.
    + destruct (Z.compare_spec (-52) e); [lia|done|lia].
    + destruct (Z.compare_spec e (-52)); [lia|lia|done].
Qed.

(** The product of two floats of magnitude at most 1 is zero or finite. *)
Lemma mul_unit_real (c1 c2 : float) :
  (-1 <=? c1) && (c1 <=? 1) = true → (-1 <=? c2) && (c2 <=? 1) = true →
  SFreal (Prim2SF (c1 * c2)).
Proof.
  intros H1%unit_float H2%unit_float. rewrite FloatAxioms.mul_spec.
  destruct (Prim2SF c1) as [s1| | |s1 m1 e1], (Prim2SF c2) as [s2| | |s2 m2 e2]; try done.
  unfold SF64mul, SFmul. apply binary_round_aux_small; [|lia].
  destruct H1 as [H1 _], H2 as [H2 _]. rewrite Pos2Z.inj_mul.
  change (2 ^ 106)%Z with (2 ^ 53 * 2 ^ 53)%Z. nia.
Qed.

(** The second term of the haversine sum when a sine is zero. *)
Lemma mul_unit_zero (c1 c2 : float) :
  (-1 <=? c1) && (c1 <=? 1) = true → (-1 <=? c2) && (c2 <=? 1) = true →
  0 + c1 * c2 * 0 = 0.
Proof.
  intros H1 H2. pose proof (mul_unit_real c1 c2 H1 H2) as Hp.
  apply Prim2SF_inj. rewrite FloatAxioms.add_spec, FloatAxioms.mul_spec.
  change (Prim2SF 0) with (S754_zero false).
  by destruct (Prim2SF (c1 * c2)) as [[]| | |[] m e].
Qed.

End Binary64.

(** * The distance calculator *)

Lemma valid_coordinate_real (lat lon : float) :
  valid_coordinate lat lon → SFreal (Prim2SF lat) ∧ SFreal (Prim2SF lon).
Proof.
  intros [Hlat Hlon]. split.
  - by apply (between_real lat (-90) 90).
  - by apply (between_real lon (-180) 180).
Qed.

(** C10: the distance from a valid coordinate to itself is exactly 0.0,
    on a C library that is exact at zero and whose cosine does not leave
    the interval from -1 to 1. *)
Theorem haversine_distance_m_same_point (lib : PyMath) (lat lon : float) :
  exact_at_zero lib →
  cosine_in_unit lib (math_radians lat) →
  valid_coordinate lat lon →
  haversine_distance_m lib lat lon lat lon = Ok 0%float.
Proof.
  intros (Hsin & Hpow & Hatan2) (c & Hcos & Hc) [Hlat Hlon]%valid_coordinate_real.
  unfold haversine_distance_m.
  rewrite (sub_diag lat Hlat), (sub_diag lon Hlon).
  change (math_radians 0 / 2)%float with 0%float.
  repeat (first [rewrite Hsin | rewrite Hpow | rewrite Hcos]; simpl).
  rewrite (mul_unit_zero c c Hc Hc).
  change (math_sqrt 0) with (Ok 0%float). simpl.
  change (math_sqrt (1 - 0)) with (Ok 1%float). simpl.
  rewrite Hatan2. simpl. reflexivity.
Qed.

(** * The claims on concrete runs *)

(** A sampled library returns its own table. *)
Lemma sampled_agrees : agrees (sampled near_antipode_samples) near_antipode_samples.
Proof.
  unfold agrees, near_antipode_samples. simpl.
  repeat split; repeat (constructor; [vm_compute; reflexivity|]); constructor.
Qed.

(** The table of all the samples holds the samples next to the antipode,
    and none of its other entries hides one of them. *)
Lemma glibc_samples_agree : agrees (sampled glibc_samples) near_antipode_samples.
Proof.
  unfold agrees, near_antipode_samples. simpl.
  repeat split; repeat (constructor; [vm_compute; reflexivity|]); constructor.
Qed.

(** Three updates of one vehicle: into [airport], out of every zone, into
    [downtown]. *)
Example three_updates :
  EVENT_LOG (ingest_all (sampled glibc_samples) ZONES
               [at_airport; at_origin; at_downtown] initial_state) =
    [ ZoneEvent.mk "enter" "V1" "airport" 1700000000 None (Some "airport");
      ZoneEvent.mk "exit" "V1" "airport" 1700000060 (Some "airport") None;
      ZoneEvent.mk "enter" "V1" "downtown" 1700000120 None (Some "downtown") ].
Proof. by vm_compute. Qed.

(** X15 on a run: a vehicle recorded in [airport] that reports the centre
    of [downtown] generates [exit] then [enter]. *)
Lemma ingest_location_generated_events_witness :
  let s := (ingest_location (sampled glibc_samples) ZONES at_airport initial_state).2 in
  find_zone_for_point (sampled glibc_samples) ZONES
    (LocationEvent.latitude at_downtown) (LocationEvent.longitude at_downtown)
    = Ok (Some "downtown") ∧
  zone_of s "V1" = Some "airport" ∧
  ∃ response s',
    ingest_location (sampled glibc_samples) ZONES at_downtown s = (Ok response, s') ∧
    LocationResponse.generatedEvents response =
      [ ZoneEvent.mk "exit" "V1" "airport" 1700000120 (Some "airport") (Some "downtown");
        ZoneEvent.mk "enter" "V1" "downtown" 1700000120 (Some "airport") (Some "downtown") ].
Proof.
  intros s.
  assert (find_zone_for_point (sampled glibc_samples) ZONES
            (LocationEvent.latitude at_downtown) (LocationEvent.longitude at_downtown)
          = Ok (Some "downtown")) as Hzone by (vm_compute; reflexivity).
  assert (zone_of s "V1" = Some "airport") as Hprev by (vm_compute; reflexivity).
  split; [exact Hzone|]. split; [exact Hprev|].
  destruct (ingest_location_generated_events (sampled glibc_samples) ZONES
              at_downtown s (Some "downtown") Hzone)
    as (response & s' & Hrun & _ & _ & _ & Hswitch & _).
  exists response, s'. split; [exact Hrun|].
  apply (Hswitch "airport" "downtown"); [exact Hprev|reflexivity|discriminate].
Defined.

(** X16 on a run: the first update of a vehicle creates its entry. *)
Lemma ingest_location_overwrites_status_witness :
  find_zone_for_point (sampled glibc_samples) ZONES
    (LocationEvent.latitude at_airport) (LocationEvent.longitude at_airport)
    = Ok (Some "airport") ∧
  VEHICLE_STATE initial_state !! "V1" = None ∧
  ∃ response s',
    ingest_location (sampled glibc_samples) ZONES at_airport initial_state = (Ok response, s') ∧
    VEHICLE_STATE s' !! "V1" =
      Some (VehicleStatus.mk "V1" (Some "airport") 12.9611 77.6387 1700000000).
Proof.
  assert (find_zone_for_point (sampled glibc_samples) ZONES
            (LocationEvent.latitude at_airport) (LocationEvent.longitude at_airport)
          = Ok (Some "airport")) as Hzone by (vm_compute; reflexivity).
  split; [exact Hzone|]. split; [reflexivity|].
  destruct (ingest_location_overwrites_status (sampled glibc_samples) ZONES
              at_airport initial_state (Some "airport") Hzone)
    as (response & s' & Hrun & Hentry & _).
  exists response, s'. split; [exact Hrun|exact Hentry].
Defined.

(** C5 on a run: V1 reports the centre of [airport] twice, and V2 sends
    an update in between. *)
Lemma ingest_location_repeated_witness :
  let first := ingest_location (sampled glibc_samples) ZONES at_airport initial_state in
  let between := ingest_all (sampled glibc_samples) ZONES [other_at_downtown] first.2 in
  let second := ingest_location (sampled glibc_samples) ZONES at_airport between in
  Forall (λ o, LocationEvent.vehicleId o ≠ LocationEvent.vehicleId at_airport)
    [other_at_downtown] ∧
  EVENT_LOG second.2 = EVENT_LOG between ∧
  (∀ r1, first.1 = Ok r1 →
     ∃ r2, second.1 = Ok r2 ∧ LocationResponse.generatedEvents r2 = []) ∧
  (∀ e, first.1 = Raise e → second.1 = Raise e).
Proof.
  assert (Forall (λ o, LocationEvent.vehicleId o ≠ LocationEvent.vehicleId at_airport)
            [other_at_downtown]) as Hothers.
  { constructor; [discriminate|constructor]. }
  split; [exact Hothers|].
  exact (ingest_location_repeated (sampled glibc_samples) ZONES
           at_airport [other_at_downtown] initial_state Hothers).
Defined.

(** C6 on a run: the empty store satisfies the invariant, and so does the
    store after an update. *)
Lemma ingest_location_zones_known_witness :
  zones_known ZONES initial_state ∧
  zones_known ZONES
    (ingest_location (sampled glibc_samples) ZONES at_airport initial_state).2.
Proof.
  assert (zones_known ZONES initial_state) as Hinit.
  { intros v st z Hst. simpl in Hst. rewrite lookup_empty in Hst. discriminate. }
  split; [exact Hinit|].
  exact (ingest_location_zones_known (sampled glibc_samples) ZONES
           at_airport initial_state Hinit).
Defined.

(** C7 on a run: the last event of V1 among three events. *)
Lemma list_events_window_witness :
  let s := {| VEHICLE_STATE := ∅;
              EVENT_LOG := [ entered_airport;
                             enter_event "V2" 1700000030 None "downtown";
                             exit_event "V1" 1700000060 "airport" None ] |} in
  (0 < 1)%Z ∧
  list_events (Some "V1") (Some 1%Z) s =
    (Ok [exit_event "V1" 1700000060 "airport" None], s).
Proof.
  intros s. split; [lia|].
  destruct (list_events_window (Some "V1") 1 s ltac:(lia)) as (window & Hrun & -> & _).
  exact Hrun.
Defined.

(** C9 on a run: V1 has sent an update, V2 has not. *)
Lemma get_vehicle_status_unknown_witness :
  let s := ingest_all (sampled glibc_samples) ZONES [at_airport] initial_state in
  Forall (λ u, LocationEvent.vehicleId u ≠ "V2") [at_airport] ∧
  get_vehicle_status "V2" s = (Raise (HTTPException 404 "Vehicle not found"), s).
Proof.
  assert (Forall (λ u, LocationEvent.vehicleId u ≠ "V2") [at_airport]) as Hall.
  { constructor; [discriminate|constructor]. }
  split; [exact Hall|].
  exact (get_vehicle_status_unknown (sampled glibc_samples) ZONES [at_airport] "V2" Hall).
Defined.

(** C10 on a run: the centre of [airport]. *)
Lemma haversine_distance_m_same_point_witness :
  exact_at_zero (sampled glibc_samples) ∧
  cosine_in_unit (sampled glibc_samples) (math_radians 12.9611) ∧
  valid_coordinate 12.9611 77.6387 ∧
  haversine_distance_m (sampled glibc_samples) 12.9611 77.6387 12.9611 77.6387 = Ok 0%float.
Proof.
  assert (exact_at_zero (sampled glibc_samples)) as Hzero
    by (repeat split; vm_compute; reflexivity).
  assert (cosine_in_unit (sampled glibc_samples) (math_radians 12.9611)) as Hcos
    by (exists 0x1.f2f49f343fbc0p-1%float; split; vm_compute; reflexivity).
  assert (valid_coordinate 12.9611 77.6387) as Hvalid
    by (split; vm_compute; reflexivity).
  split; [exact Hzero|]. split; [exact Hcos|]. split; [exact Hvalid|].
  exact (haversine_distance_m_same_point (sampled glibc_samples) 12.9611 77.6387
           Hzero Hcos Hvalid).
Defined.

(** C2 on a run: the library that knows the sampled values only. *)
Lemma find_zone_for_point_raises_witness :
  agrees (sampled near_antipode_samples) near_antipode_samples ∧
  find_zone_for_point (sampled near_antipode_samples) ZONES (-12.97160014) (-102.4054)
    = Raise ValueError.
Proof.
  split; [exact sampled_agrees|].
  exact (find_zone_for_point_raises (sampled near_antipode_samples) sampled_agrees).
Defined.

(** C1 on a run: V1 enters [airport] and then reports the coordinate
    next to the antipode.  The update raises, and the log still ends with
    the [enter] event: no [exit] is recorded. *)
Lemma ingest_location_near_antipode_no_events_witness :
  let s := (ingest_location (sampled glibc_samples) ZONES at_airport initial_state).2 in
  let run := ingest_location (sampled glibc_samples) ZONES
               (near_antipode "V1" 1700000060) s in
  agrees (sampled glibc_samples) near_antipode_samples ∧
  zone_of s "V1" = Some "airport" ∧
  run = (Raise ValueError, s) ∧
  generated_by run.1 = [] ∧
  EVENT_LOG run.2 = [entered_airport] ∧
  transition_events "V1" 1700000060 (zone_of s "V1") None =
    [ZoneEvent.mk "exit" "V1" "airport" 1700000060 (Some "airport") None].
Proof.
  intros s run.
  assert (zone_of s "V1" = Some "airport") as Hprev by (vm_compute; reflexivity).
  split; [exact glibc_samples_agree|]. split; [exact Hprev|].
  destruct (ingest_location_near_antipode_no_events (sampled glibc_samples)
              "V1" "airport" 1700000060 s glibc_samples_agree Hprev)
    as (Hrun & Hnone & Hlog & Hrule).
  split; [exact Hrun|]. split; [exact Hnone|]. split; [|exact Hrule].
  etransitivity; [exact Hlog|]. vm_compute. reflexivity.
Defined.

(** C4 on a run: V2, which has no entry, and V1, which is recorded at the
    centre of [airport], report the coordinate next to the antipode.
    Both updates raise; V2 still has no entry and V1 still has the entry
    of its first update. *)
Lemma ingest_location_near_antipode_no_write_witness :
  let s := (ingest_location (sampled glibc_samples) ZONES at_airport initial_state).2 in
  let first_seen := ingest_location (sampled glibc_samples) ZONES
                      (near_antipode "V2" 1700000060) s in
  let known := ingest_location (sampled glibc_samples) ZONES
                 (near_antipode "V1" 1700000060) s in
  agrees (sampled glibc_samples) near_antipode_samples ∧
  VEHICLE_STATE s !! "V2" = None ∧
  first_seen.1 = Raise ValueError ∧
  get_vehicle_status "V2" first_seen.2 =
    (Raise (HTTPException 404 "Vehicle not found"), first_seen.2) ∧
  known.1 = Raise ValueError ∧
  VEHICLE_STATE known.2 !! "V1" =
    Some (VehicleStatus.mk "V1" (Some "airport") 12.9611 77.6387 1700000000).
Proof.
  intros s first_seen known.
  assert (VEHICLE_STATE s !! "V2" = None) as Hnone by (vm_compute; reflexivity).
  split; [exact glibc_samples_agree|]. split; [exact Hnone|].
  destruct (ingest_location_near_antipode_no_write (sampled glibc_samples)
              "V2" 1700000060 s glibc_samples_agree)
    as (Hraise2 & _ & Hunknown & _).
  destruct (ingest_location_near_antipode_no_write (sampled glibc_samples)
              "V1" 1700000060 s glibc_samples_agree)
    as (Hraise1 & Hkept & _ & _).
  split; [exact Hraise2|]. split; [exact (Hunknown Hnone)|]. split; [exact Hraise1|].
  etransitivity; [exact Hkept|]. vm_compute. reflexivity.
Defined.

(** C3 fails on the code.  After 101 updates that each generate one
    event, a listing with limit 0 returns the 101 events of the log,
    where a listing without a limit returns the last 100; and on the log
    of two events a listing with limit -1 returns the last event only,
    where a listing without a limit returns both. *)
Theorem list_events_nonpositive_limit_not_default :
  let s := ingest_all (sampled glibc_samples) ZONES (shuttle 101) initial_state in
  let s2 := ingest_all (sampled glibc_samples) ZONES [at_airport; at_origin] initial_state in
  length (EVENT_LOG s) = 101 ∧
  list_events None (Some 0%Z) s = (Ok (EVENT_LOG s), s) ∧
  list_events None None s = (Ok (drop 1 (EVENT_LOG s)), s) ∧
  EVENT_LOG s2 = [entered_airport; exit_event "V1" 1700000060 "airport" None] ∧
  list_events None (Some (-1)%Z) s2 = (Ok [exit_event "V1" 1700000060 "airport" None], s2) ∧
  list_events None None s2 = (Ok (EVENT_LOG s2), s2).
Proof. by vm_compute. Qed.

(** C7 as stated fails: with the empty string as filter the listing
    returns an event of V1, which the filter does not match. *)
Lemma list_events_empty_filter_counterexample :
  let s := {| VEHICLE_STATE := ∅; EVENT_LOG := [entered_airport] |} in
  list_events (Some "") (Some 1%Z) s = (Ok [entered_airport], s) ∧
  ZoneEvent.vehicleId entered_airport ≠ "" ∧
  last_n 1 (filter (λ e, ZoneEvent.vehicleId e = "") (EVENT_LOG s)) = [].
Proof. split; [by vm_compute|]. split; [discriminate|by vm_compute]. Qed.

(** * Further properties of the engine *)

Section Histories.
Variable lib : PyMath.
Variable zones : list GeofenceZone.t.

(** What one update does to the stores: nothing when the resolver
    raises, else the write of the status and the events of the
    transition. *)
Lemma ingest_location_step (event : LocationEvent.t) (s : State) :
  (ingest_location lib zones event s).2 = s ∨
  ∃ z,
    find_zone_for_point lib zones (LocationEvent.latitude event)
      (LocationEvent.longitude event) = Ok z ∧
    ingest_location lib zones event s =
      (Ok (LocationResponse.mk (status_after event z) (events_after event s z)),
       {| VEHICLE_STATE :=
            <[LocationEvent.vehicleId event := status_after event z]> (VEHICLE_STATE s);
          EVENT_LOG := EVENT_LOG s ++ events_after event s z |}).
Proof.
  destruct (find_zone_for_point lib zones (LocationEvent.latitude event)
              (LocationEvent.longitude event)) as [z|e] eqn:Hzone.
  - right. exists z. split; [done|]. by apply ingest_location_returns.
  - left. by rewrite (ingest_location_raises _ _ _ _ _ Hzone).
Qed.

(** An update that returns has resolved a zone. *)
Lemma ingest_location_returned
    (event : LocationEvent.t) (s s' : State) (response : LocationResponse.t) :
  ingest_location lib zones event s = (Ok response, s') →
  ∃ z,
    find_zone_for_point lib zones (LocationEvent.latitude event)
      (LocationEvent.longitude event) = Ok z ∧
    response = LocationResponse.mk (status_after event z) (events_after event s z) ∧
    s' = {| VEHICLE_STATE :=
              <[LocationEvent.vehicleId event := status_after event z]> (VEHICLE_STATE s);
            EVENT_LOG := EVENT_LOG s ++ events_after event s z |}.
Proof.
  intros Hrun.
  destruct (find_zone_for_point lib zones (LocationEvent.latitude event)
              (LocationEvent.longitude event)) as [z|e] eqn:Hzone.
  - rewrite (ingest_location_returns _ _ _ _ _ Hzone) in Hrun.
    injection Hrun as <- <-. by exists z.
  - by rewrite (ingest_location_raises _ _ _ _ _ Hzone) in Hrun.
Qed.

(** A property of the stores that every update keeps holds after any
    sequence of updates. *)
Lemma ingest_all_preserves (P : State → Prop) :
  (∀ event s, P s → P (ingest_location lib zones event s).2) →
  ∀ updates s, P s → P (ingest_all lib zones updates s).
Proof.
  intros Hstep updates. induction updates as [|event updates IH]; intros s Hs; [done|].
  change (ingest_all lib zones (event :: updates) s)
    with (ingest_all lib zones updates (ingest_location lib zones event s).2).
  by apply IH, Hstep.
Qed.

Lemma transition_events_vehicle (vehicle_id : string) (ts : datetime) (p z : option string) :
  Forall (λ e, ZoneEvent.vehicleId e = vehicle_id ∧ ZoneEvent.timestamp e = ts)
    (transition_events vehicle_id ts p z).
Proof.
  unfold transition_events.
  destruct p, z; try destruct (decide _); repeat constructor.
Qed.

(** X3: the event log is append-only.  After any sequence of updates the
    log before is a prefix of the log after, and the log has grown by at
    most two events per update. *)
Theorem ingest_all_log_grows (updates : list LocationEvent.t) (s : State) :
  EVENT_LOG s `prefix_of` EVENT_LOG (ingest_all lib zones updates s) ∧
  length (EVENT_LOG (ingest_all lib zones updates s))
    ≤ length (EVENT_LOG s) + 2 * length updates.
Proof.
  revert s. induction updates as [|event updates IH]; intros s.
  - simpl. split; [done|lia].
  - change (ingest_all lib zones (event :: updates) s)
      with (ingest_all lib zones updates (ingest_location lib zones event s).2).
    destruct (IH (ingest_location lib zones event s).2) as [Hprefix Hlength].
    destruct (ingest_location_step event s) as [Hsame|(z & _ & Hrun)].
    + rewrite Hsame in *. split; [done|]. simpl. lia.
    + rewrite Hrun in *. cbn [fst snd EVENT_LOG] in *.
      pose proof (transition_events_length (LocationEvent.vehicleId event)
                    (LocationEvent.timestamp event)
                    (zone_of s (LocationEvent.vehicleId event)) z) as Hle.
      fold (events_after event s z) in Hle.
      rewrite length_app in Hlength. split.
      * etrans; [|exact Hprefix]. by apply prefix_app_r.
      * cbn [length]. lia.
Qed.

(** The events of one transition are well formed, when the two zones
    are zones of the catalog. *)
Lemma transition_events_wellformed
    (vehicle_id : string) (ts : datetime) (p z : option string) :
  (∀ x, p = Some x → ∃ zone, zone ∈ zones ∧ GeofenceZone.id zone = x) →
  (∀ x, z = Some x → ∃ zone, zone ∈ zones ∧ GeofenceZone.id zone = x) →
  Forall (event_wellformed zones) (transition_events vehicle_id ts p z).
Proof.
  intros Hp Hz.
  assert (∀ from x, from ≠ Some x → z = Some x →
            event_wellformed zones (enter_event vehicle_id ts from x)) as Henter.
  { intros from x Hne Hx. split; [by left|]. split; [done|]. by apply Hz. }
  assert (∀ x to, Some x ≠ to → p = Some x →
            event_wellformed zones (exit_event vehicle_id ts x to)) as Hexit.
  { intros x to Hne Hx. split; [by right|]. split; [done|]. by apply Hp. }
  unfold transition_events.
  destruct p as [p|], z as [z|]; try destruct (decide _);
    repeat (constructor; [first [by apply Henter; [congruence|] | by apply Hexit; [congruence|]]|]);
    constructor.
Qed.

(** X4: every event of the log is well formed, after any sequence of
    updates from the empty stores: it is an [enter] whose [toZone] is its
    zone or an [exit] whose [fromZone] is its zone, its [fromZone] and
    [toZone] differ, and its zone is a zone of the catalog. *)
Theorem ingest_all_log_wellformed (updates : list LocationEvent.t) :
  Forall (event_wellformed zones)
    (EVENT_LOG (ingest_all lib zones updates initial_state)).
Proof.
  cut (Forall (event_wellformed zones)
         (EVENT_LOG (ingest_all lib zones updates initial_state)) ∧
       zones_known zones (ingest_all lib zones updates initial_state)); [by intros []|].
  apply (ingest_all_preserves
           (λ s, Forall (event_wellformed zones) (EVENT_LOG s) ∧ zones_known zones s)).
  - intros event s [Hlog Hknown].
    destruct (ingest_location_step event s) as [->|(z & Hzone & Hrun)]; [done|].
    split.
    + rewrite Hrun. simpl. apply Forall_app. split; [done|].
      apply transition_events_wellformed.
      * unfold zone_of. intros x Hx.
        destruct (VEHICLE_STATE s !! LocationEvent.vehicleId event) as [st|] eqn:Hst; [|done].
        by eapply Hknown.
      * intros x ->. by eapply for_zone_in_member.
    + apply (ingest_all_zones_known lib zones [event] s Hknown).
  - split; [constructor|]. intros v st z Hst. simpl in Hst.
    by rewrite lookup_empty in Hst.
Qed.

Lemma last_zone_in_log_app (v : string) (log evs : list ZoneEvent.t) :
  last_zone_in_log v (log ++ evs) =
    match last (filter (λ e, ZoneEvent.vehicleId e = v) evs) with
    | Some e => ZoneEvent.toZone e
    | None => last_zone_in_log v log
    end.
Proof.
  unfold last_zone_in_log. rewrite filter_app.
  destruct (filter (λ e, ZoneEvent.vehicleId e = v) evs) as [|e evs'] using rev_ind.
  - by rewrite app_nil_r.
  - by rewrite app_assoc, !last_snoc.
Qed.

(** X5: the vehicle store agrees with the log.  After any sequence of
    updates from the empty stores, the zone recorded for a vehicle is
    the [toZone] of the last event of that vehicle in the log, and no
    zone when the log has no event of the vehicle. *)
Theorem ingest_all_store_matches_log (updates : list LocationEvent.t) (v : string) :
  zone_of (ingest_all lib zones updates initial_state) v =
    last_zone_in_log v (EVENT_LOG (ingest_all lib zones updates initial_state)).
Proof.
  revert v.
  apply (ingest_all_preserves
           (λ s, ∀ v, zone_of s v = last_zone_in_log v (EVENT_LOG s))); [|done].
  intros event s Hs v.
  destruct (ingest_location_step event s) as [->|(z & _ & Hrun)]; [done|].
  rewrite Hrun. simpl. rewrite last_zone_in_log_app.
  unfold zone_of at 1. simpl. unfold events_after.
  destruct (decide (LocationEvent.vehicleId event = v)) as [<-|Hne].
  - rewrite lookup_insert_eq. simpl.
    pose proof (Hs (LocationEvent.vehicleId event)) as Hprev.
    assert (∀ evs : list ZoneEvent.t,
              Forall (λ e, ZoneEvent.vehicleId e = LocationEvent.vehicleId event
                           ∧ ZoneEvent.timestamp e = LocationEvent.timestamp event) evs →
              filter (λ e, ZoneEvent.vehicleId e = LocationEvent.vehicleId event) evs = evs)
      as Hown.
    { induction 1 as [|e evs [He _] _ IH]; [done|].
      rewrite filter_cons_True by done. by rewrite IH. }
    rewrite Hown by apply transition_events_vehicle.
    unfold transition_events.
    destruct (zone_of s (LocationEvent.vehicleId event)) as [p|] eqn:Hp, z as [z|];
      try destruct (decide (p = z)) as [->|];
      simpl; rewrite ?decide_True by done; simpl; congruence.
  - rewrite lookup_insert_ne by done. fold (zone_of s v). rewrite Hs.
    assert (filter (λ e, ZoneEvent.vehicleId e = v)
              (transition_events (LocationEvent.vehicleId event)
                 (LocationEvent.timestamp event)
                 (zone_of s (LocationEvent.vehicleId event)) z) = []) as ->; [|done].
    pose proof (transition_events_vehicle (LocationEvent.vehicleId event)
                  (LocationEvent.timestamp event)
                  (zone_of s (LocationEvent.vehicleId event)) z) as Hall.
    induction Hall as [|e evs [He _] _ IH]; [done|].
    rewrite filter_cons_False by congruence. exact IH.
Qed.

(** Every entry of the store is the status written by one of the updates
    seen so far, under the vehicle id of that update. *)
Lemma ingest_all_entries_from (seen updates : list LocationEvent.t) (s : State) :
  (∀ v st, VEHICLE_STATE s !! v = Some st →
     ∃ u, u ∈ seen ∧ LocationEvent.vehicleId u = v ∧
          st = status_after u (VehicleStatus.currentZone st)) →
  ∀ v st, VEHICLE_STATE (ingest_all lib zones updates s) !! v = Some st →
    ∃ u, u ∈ seen ++ updates ∧ LocationEvent.vehicleId u = v ∧
         st = status_after u (VehicleStatus.currentZone st).
Proof.
  revert seen s. induction updates as [|event updates IH]; intros seen s Hs v st Hst.
  - rewrite app_nil_r. by apply Hs.
  - change (ingest_all lib zones (event :: updates) s)
      with (ingest_all lib zones updates (ingest_location lib zones event s).2) in Hst.
    rewrite cons_middle, app_assoc.
    apply (IH (seen ++ [event]) (ingest_location lib zones event s).2); [|done].
    clear v st Hst. intros v st Hst.
    destruct (ingest_location_step event s) as [Hsame|(z & _ & Hrun)].
    + rewrite Hsame in Hst. destruct (Hs v st Hst) as (u & Hu & Hrest).
      exists u. split; [|done]. apply elem_of_app. by left.
    + rewrite Hrun in Hst. simpl in Hst.
      destruct (decide (LocationEvent.vehicleId event = v)) as [<-|Hne].
      * rewrite lookup_insert_eq in Hst. injection Hst as <-.
        exists event. split; [|done]. apply elem_of_app. right. by left.
      * rewrite lookup_insert_ne in Hst by done.
        destruct (Hs v st Hst) as (u & Hu & Hrest).
        exists u. split; [|done]. apply elem_of_app. by left.
Qed.

(** X6: the entries of the vehicle store come from updates.  After any
    sequence of updates from the empty stores, the entry under a vehicle
    id carries that id, and its coordinate and time are those of an
    update of that vehicle in the sequence. *)
Theorem ingest_all_entries (updates : list LocationEvent.t) (v : string) (st : VehicleStatus.t) :
  VEHICLE_STATE (ingest_all lib zones updates initial_state) !! v = Some st →
  VehicleStatus.vehicleId st = v ∧
  ∃ u, u ∈ updates ∧
    LocationEvent.vehicleId u = v ∧
    VehicleStatus.lastLatitude st = LocationEvent.latitude u ∧
    VehicleStatus.lastLongitude st = LocationEvent.longitude u ∧
    VehicleStatus.lastUpdated st = LocationEvent.timestamp u.
Proof.
  intros Hst.
  destruct (ingest_all_entries_from [] updates initial_state) with (v := v) (st := st)
    as (u & Hu & Hv & Hstatus); [|done|].
  - intros v' st' Hst'. simpl in Hst'. by rewrite lookup_empty in Hst'.
  - rewrite Hstatus. simpl. split; [done|]. by exists u.
Qed.

(** X7: the vehicle store never loses an entry.  A vehicle that has an
    entry has one after any further sequence of updates. *)
Theorem ingest_all_keeps_entries (updates : list LocationEvent.t) (s : State) (v : string) :
  is_Some (VEHICLE_STATE s !! v) →
  is_Some (VEHICLE_STATE (ingest_all lib zones updates s) !! v).
Proof.
  apply (ingest_all_preserves (λ s, is_Some (VEHICLE_STATE s !! v))).
  intros event s' Hs'.
  destruct (ingest_location_step event s') as [->|(z & _ & ->)]; [done|]. simpl.
  destruct (decide (LocationEvent.vehicleId event = v)) as [<-|Hne].
  - rewrite lookup_insert_eq. by eexists.
  - by rewrite lookup_insert_ne.
Qed.

(** X1: the status of a vehicle is the one that its last update
    returned.  After an update that returns, and any updates of other
    vehicles, the status query returns the status of the reply and
    leaves the stores as they are. *)
Theorem get_vehicle_status_after_update
    (event : LocationEvent.t) (others : list LocationEvent.t)
    (s s' : State) (response : LocationResponse.t) :
  ingest_location lib zones event s = (Ok response, s') →
  Forall (λ o, LocationEvent.vehicleId o ≠ LocationEvent.vehicleId event) others →
  get_vehicle_status (LocationEvent.vehicleId event) (ingest_all lib zones others s') =
    (Ok (LocationResponse.status response), ingest_all lib zones others s').
Proof.
  intros (z & _ & -> & ->)%ingest_location_returned Hothers.
  unfold get_vehicle_status, mbind, handler_bind, VEHICLE_STATE_get.
  rewrite (ingest_all_zone_of lib zones others _ _ Hothers). simpl.
  by rewrite lookup_insert_eq.
Qed.

(** X8: in every reply the events agree with the status.  An [enter]
    event of the reply leads to the zone of the returned status, an
    [exit] event comes from the zone recorded before the update, and
    every event carries the vehicle id and the timestamp of the update. *)
Theorem ingest_location_reply_consistent
    (event : LocationEvent.t) (s s' : State) (response : LocationResponse.t) :
  ingest_location lib zones event s = (Ok response, s') →
  Forall (λ e,
            ZoneEvent.vehicleId e = LocationEvent.vehicleId event ∧
            ZoneEvent.timestamp e = LocationEvent.timestamp event ∧
            (ZoneEvent.eventType e = "enter" →
               ZoneEvent.toZone e = VehicleStatus.currentZone (LocationResponse.status response)) ∧
            (ZoneEvent.eventType e = "exit" →
               ZoneEvent.fromZone e = zone_of s (LocationEvent.vehicleId event)))
    (LocationResponse.generatedEvents response).
Proof.
  intros (z & _ & -> & _)%ingest_location_returned. simpl.
  unfold events_after, transition_events.
  destruct (zone_of s (LocationEvent.vehicleId event)) as [p|], z as [z|];
    try destruct (decide (p = z)); repeat constructor; simpl; done.
Qed.

Lemma last_n_app_length {A : Type} (l g : list A) : last_n (length g) (l ++ g) = g.
Proof.
  unfold last_n. rewrite length_app.
  replace (length l + length g - length g) with (length l) by lia.
  apply drop_app_length.
Qed.

(** X9: a listing right after an update shows its events.  When an update
    returns a non-empty list of events, the listing without a filter, or
    with the vehicle id of the update as filter, and with the number of
    those events as limit returns exactly those events. *)
Theorem list_events_after_update
    (event : LocationEvent.t) (s s' : State) (response : LocationResponse.t)
    (vehicleId : option string) :
  ingest_location lib zones event s = (Ok response, s') →
  LocationResponse.generatedEvents response ≠ [] →
  vehicleId = None ∨ vehicleId = Some (LocationEvent.vehicleId event) →
  list_events vehicleId
    (Some (Z.of_nat (length (LocationResponse.generatedEvents response)))) s' =
    (Ok (LocationResponse.generatedEvents response), s').
Proof.
  intros (z & _ & -> & ->)%ingest_location_returned Hsome Hfilter. simpl in *.
  rewrite list_events_slice. simpl.
  set (g := events_after event s z) in *.
  assert (0 < length g) by (destruct g; [done|simpl; lia]).
  rewrite slice_from_last_n by lia. rewrite Nat2Z.id. do 2 f_equal.
  assert (matching vehicleId (EVENT_LOG s ++ g) = matching vehicleId (EVENT_LOG s) ++ g) as ->;
    [|apply last_n_app_length].
  unfold matching. destruct Hfilter as [->| ->]; [done|].
  destruct (decide _); [done|]. rewrite filter_app. f_equal.
  pose proof (transition_events_vehicle (LocationEvent.vehicleId event)
                (LocationEvent.timestamp event)
                (zone_of s (LocationEvent.vehicleId event)) z) as Hall.
  fold (events_after event s z) in Hall. fold g in Hall. clearbody g.
  clear Hsome H. induction Hall as [|e evs [He _] _ IH]; [done|].
  rewrite filter_cons_True by done. by rewrite IH.
Qed.

End Histories.

(** X10: a larger limit extends the window to the past.  For limits
    [0 < N <= M] the listing with limit [N] is the end of the listing
    with limit [M]. *)
Theorem list_events_window_extends (vehicleId : option string) (N M : Z) (s : State) :
  (0 < N <= M)%Z →
  ∃ shorter longer,
    list_events vehicleId (Some N) s = (Ok shorter, s) ∧
    list_events vehicleId (Some M) s = (Ok longer, s) ∧
    shorter `suffix_of` longer.
Proof.
  intros HNM. do 2 eexists. split; [apply list_events_slice|].
  split; [apply list_events_slice|]. simpl.
  rewrite !slice_from_last_n by lia. unfold last_n.
  set (l := matching vehicleId (EVENT_LOG s)).
  replace (length l - Z.to_nat N)
    with ((length l - Z.to_nat M) + ((length l - Z.to_nat N) - (length l - Z.to_nat M))) by lia.
  rewrite <- drop_drop. apply suffix_drop.
Qed.

(** * The square roots of the distance *)

Section SquareRoots.
Local Open Scope float_scope.

Lemma SFcompare_refl (x : spec_float) : x ≠ S754_nan → SFcompare x x = Some Eq.
Proof.
  destruct x as [s|[]| |[] m e]; simpl; try done.
  - by rewrite Z.compare_refl, Pos.compare_cont_refl.
  - by rewrite Z.compare_refl, Pos.compare_cont_refl.
Qed.

Lemma is_nan_Prim2SF (x : float) : is_nan x = true ↔ Prim2SF x = S754_nan.
Proof.
  unfold is_nan. rewrite FloatAxioms.eqb_spec. unfold SFeqb. split.
  - intros H. destruct (Prim2SF x) eqn:Hx; try done;
      rewrite SFcompare_refl in H by done; done.
  - intros ->. done.
Qed.

Lemma is_nan_false (x : float) : Prim2SF x ≠ S754_nan → is_nan x = false.
Proof.
  intros H. destruct (is_nan x) eqn:Hn; [|done]. by apply is_nan_Prim2SF in Hn.
Qed.

Section RoundingSign.
Local Open Scope Z_scope.
Lemma shr_1_nonneg (mrs : shr_record) : 0 <= shr_m mrs → 0 <= shr_m (shr_1 mrs).
Proof. destruct mrs as [[|[p|p|]|p] r s]; simpl; lia. Qed.

Lemma iter_pos_shr_1_nonneg (p : positive) (mrs : shr_record) :
  0 <= shr_m mrs → 0 <= shr_m (SpecFloat.iter_pos shr_1 p mrs).
Proof.
  revert mrs. induction p as [p IH|p IH|]; intros mrs H; simpl.
  - apply IH, IH. by apply shr_1_nonneg.
  - by apply IH, IH.
  - by apply shr_1_nonneg.
Qed.

Lemma shr_fexp_nonneg (m e : Z) (l : location) :
  0 <= m → 0 <= shr_m (shr_fexp prec emax m e l).1.
Proof.
  intros Hm. unfold shr_fexp, shr.
  assert (shr_m (shr_record_of_loc m l) = m) as Hrec by (by destruct l as [|[]]).
  destruct (fexp prec emax (Zdigits2 m + e) - e) as [|p|p]; simpl; try lia.
  apply iter_pos_shr_1_nonneg. lia.
Qed.

Lemma binary_round_aux_not_nan (sx : bool) (mx ex : Z) (lx : location) :
  0 <= mx → binary_round_aux prec emax sx mx ex lx ≠ S754_nan.
Proof.
  intros Hm. unfold binary_round_aux.
  pose proof (shr_fexp_nonneg mx ex lx Hm) as Hm1.
  destruct (shr_fexp prec emax mx ex lx) as [mrs1 e1]. cbn [fst snd] in Hm1.
  assert (0 <= round_nearest_even (shr_m mrs1) (loc_of_shr_record mrs1)) as Hr.
  { destruct (loc_of_shr_record mrs1) as [|[]]; simpl; try destruct (Z.even _); lia. }
  pose proof (shr_fexp_nonneg _ e1 loc_Exact Hr) as Hm2.
  destruct (shr_fexp prec emax _ e1 loc_Exact) as [mrs2 e2]. cbn [fst snd] in Hm2.
  destruct (shr_m mrs2) as [|p|p]; [done| |lia].
  by destruct (e2 <=? emax - prec).
Qed.
End RoundingSign.

Lemma sqrt_not_nan (x : float) : (0 <=? x) = true → is_nan (PrimFloat.sqrt x) = false.
Proof.
  rewrite FloatAxioms.leb_spec. change (Prim2SF 0) with (S754_zero false).
  intros Hx. apply is_nan_false. rewrite FloatAxioms.sqrt_spec.
  destruct (Prim2SF x) as [s|[]| |[] m e]; try done.
  unfold SF64sqrt, SFsqrt.
  destruct (SFsqrt_core_binary prec emax (Z.pos m) e) as [[mz ez] lz] eqn:Hcore.
  apply binary_round_aux_not_nan.
  unfold SFsqrt_core_binary in Hcore.
  destruct (Z.sqrtrem _) as [q r] eqn:Hq. injection Hcore as <- _ _.
  change q with (q, r).1. rewrite <- Hq, Z.sqrtrem_sqrt. apply Z.sqrt_nonneg.
Qed.

Lemma sqrt_negative_nan (x : float) :
  (x <? 0) = true → is_nan (PrimFloat.sqrt x) = true ∧ is_nan x = false.
Proof.
  rewrite FloatAxioms.ltb_spec. change (Prim2SF 0) with (S754_zero false).
  intros Hx. split.
  - apply is_nan_Prim2SF. rewrite FloatAxioms.sqrt_spec.
    by destruct (Prim2SF x) as [s|[]| |[] m e].
  - apply is_nan_false. by destruct (Prim2SF x).
Qed.

(** [math.sqrt] returns the IEEE square root of a float that is not
    below zero. *)
Lemma math_sqrt_returns (x : float) :
  (0 <=? x) = true → math_sqrt x = Ok (PrimFloat.sqrt x).
Proof. intros Hx. unfold math_sqrt. by rewrite (sqrt_not_nan x Hx). Qed.

(** [math.sqrt] raises [ValueError] on a float below zero. *)
Lemma math_sqrt_domain_error (x : float) :
  (x <? 0) = true → math_sqrt x = Raise ValueError.
Proof.
  intros [Hr Hx]%sqrt_negative_nan. unfold math_sqrt. by rewrite Hr, Hx.
Qed.

Lemma math_sqrt_raises (x : float) (e : exn) : math_sqrt x = Raise e → e = ValueError.
Proof. unfold math_sqrt. destruct (_ && _); congruence. Qed.

(** The distance is computed from the haversine term. *)
Lemma haversine_distance_m_from_term (lib : PyMath) (lat1 lon1 lat2 lon2 : float) :
  haversine_distance_m lib lat1 lon1 lat2 lon2 =
    (a ← haversine_term lib lat1 lon1 lat2 lon2;
     sa ← math_sqrt a;
     sb ← math_sqrt (1 - a);
     t ← math_atan2 lib sa sb;
     mret (6371000 * (2 * t))).
Proof.
  unfold haversine_distance_m, haversine_term, mbind, result_bind.
  destruct (math_sin lib (math_radians (lat2 - lat1) / 2)) as [s1|]; [|done].
  destruct (float_pow lib s1 2) as [p1|]; [|done].
  destruct (math_cos lib (math_radians lat1)) as [c1|]; [|done].
  destruct (math_cos lib (math_radians lat2)) as [c2|]; [|done].
  destruct (math_sin lib (math_radians (lon2 - lon1) / 2)) as [s2|]; [|done].
  by destruct (float_pow lib s2 2) as [p2|].
Qed.

(** X11: the distance raises [ValueError] when the haversine term leaves
    the interval from 0 to 1.  When the library calls return and the term
    [a] of line 126 is below 0, or [1 - a] is below 0, the distance is a
    [ValueError] (math domain error) of [math.sqrt]. *)
Theorem haversine_distance_m_domain_error
    (lib : PyMath) (lat1 lon1 lat2 lon2 a : float) :
  haversine_term lib lat1 lon1 lat2 lon2 = Ok a →
  (a <? 0) || (1 - a <? 0) = true →
  haversine_distance_m lib lat1 lon1 lat2 lon2 = Raise ValueError.
Proof.
  intros Hterm Hout. rewrite haversine_distance_m_from_term, Hterm. simpl.
  destruct (math_sqrt a) as [sa|e] eqn:Hsa; simpl.
  - destruct (a <? 0) eqn:Ha.
    + by rewrite (math_sqrt_domain_error a Ha) in Hsa.
    + simpl in Hout. by rewrite (math_sqrt_domain_error (1 - a) Hout).
  - by rewrite (math_sqrt_raises a e Hsa).
Qed.

(** X12: inside the interval the square roots do not raise.  When the
    library calls return and neither the term [a] nor [1 - a] is below 0,
    the distance is 6371000 times twice the [atan2] of the IEEE square
    roots of [a] and [1 - a], and it raises only when [math.atan2]
    does. *)
Theorem haversine_distance_m_in_domain
    (lib : PyMath) (lat1 lon1 lat2 lon2 a : float) :
  haversine_term lib lat1 lon1 lat2 lon2 = Ok a →
  (0 <=? a) && (0 <=? 1 - a) = true →
  haversine_distance_m lib lat1 lon1 lat2 lon2 =
    (t ← math_atan2 lib (PrimFloat.sqrt a) (PrimFloat.sqrt (1 - a));
     mret (6371000 * (2 * t))).
Proof.
  intros Hterm [Ha Hb]%andb_prop. rewrite haversine_distance_m_from_term, Hterm. simpl.
  by rewrite (math_sqrt_returns a Ha), (math_sqrt_returns (1 - a) Hb).
Qed.

End SquareRoots.

(** * The further properties on concrete runs *)

(** The first update of V1, at the centre of [airport]: its reply and
    the stores after it. *)
Lemma first_update_run :
  ingest_location (sampled glibc_samples) ZONES at_airport initial_state =
    (Ok (LocationResponse.mk
           (VehicleStatus.mk "V1" (Some "airport") 12.9611 77.6387 1700000000)
           [entered_airport]),
     {| VEHICLE_STATE :=
          {["V1" := VehicleStatus.mk "V1" (Some "airport") 12.9611 77.6387 1700000000]};
        EVENT_LOG := [entered_airport] |}).
Proof.
  rewrite (ingest_location_returns _ _ _ _ (Some "airport")) by (vm_compute; reflexivity).
  reflexivity.
Defined.

(** X1 on a run: V1 enters [airport], V2 sends an update, and the status
    of V1 is the one that its update returned. *)
Lemma get_vehicle_status_after_update_witness :
  let s' := {| VEHICLE_STATE :=
                 {["V1" := VehicleStatus.mk "V1" (Some "airport") 12.9611 77.6387 1700000000]};
               EVENT_LOG := [entered_airport] |} in
  Forall (λ o, LocationEvent.vehicleId o ≠ LocationEvent.vehicleId at_airport)
    [other_at_downtown] ∧
  get_vehicle_status "V1" (ingest_all (sampled glibc_samples) ZONES [other_at_downtown] s') =
    (Ok (VehicleStatus.mk "V1" (Some "airport") 12.9611 77.6387 1700000000),
     ingest_all (sampled glibc_samples) ZONES [other_at_downtown] s').
Proof.
  intros s'.
  assert (Forall (λ o, LocationEvent.vehicleId o ≠ LocationEvent.vehicleId at_airport)
            [other_at_downtown]) as Hothers.
  { constructor; [discriminate|constructor]. }
  split; [exact Hothers|].
  exact (get_vehicle_status_after_update (sampled glibc_samples) ZONES
           at_airport [other_at_downtown] initial_state s' _ first_update_run Hothers).
Defined.

(** X6 on a run: the entry of V1 after its first update. *)
Lemma ingest_all_entries_witness :
  VEHICLE_STATE (ingest_all (sampled glibc_samples) ZONES [at_airport] initial_state) !! "V1"
    = Some (VehicleStatus.mk "V1" (Some "airport") 12.9611 77.6387 1700000000) ∧
  ∃ u, u ∈ [at_airport] ∧ LocationEvent.vehicleId u = "V1" ∧
    LocationEvent.latitude u = 12.9611%float.
Proof.
  assert (VEHICLE_STATE (ingest_all (sampled glibc_samples) ZONES [at_airport] initial_state)
            !! "V1"
          = Some (VehicleStatus.mk "V1" (Some "airport") 12.9611 77.6387 1700000000)) as Hst
    by (vm_compute; reflexivity).
  split; [exact Hst|].
  destruct (ingest_all_entries (sampled glibc_samples) ZONES [at_airport] "V1" _ Hst)
    as (_ & u & Hu & Hv & Hlat & _).
  exists u. split; [exact Hu|]. split; [exact Hv|]. symmetry. exact Hlat.
Defined.

(** X7 on a run: V1 keeps its entry while V2 and V1 send updates. *)
Lemma ingest_all_keeps_entries_witness :
  let s := (ingest_location (sampled glibc_samples) ZONES at_airport initial_state).2 in
  is_Some (VEHICLE_STATE s !! "V1") ∧
  is_Some (VEHICLE_STATE
             (ingest_all (sampled glibc_samples) ZONES [other_at_downtown; at_origin] s)
             !! "V1").
Proof.
  intros s.
  assert (is_Some (VEHICLE_STATE s !! "V1")) as Hs by (eexists; vm_compute; reflexivity).
  split; [exact Hs|].
  exact (ingest_all_keeps_entries (sampled glibc_samples) ZONES
           [other_at_downtown; at_origin] s "V1" Hs).
Defined.

(** X8 on a run: the reply to the first update of V1. *)
Lemma ingest_location_reply_consistent_witness :
  Forall (λ e,
            ZoneEvent.vehicleId e = "V1" ∧
            ZoneEvent.timestamp e = 1700000000%Z ∧
            (ZoneEvent.eventType e = "enter" → ZoneEvent.toZone e = Some "airport") ∧
            (ZoneEvent.eventType e = "exit" → ZoneEvent.fromZone e = None))
    [entered_airport].
Proof.
  exact (ingest_location_reply_consistent (sampled glibc_samples) ZONES
           at_airport initial_state _ _ first_update_run).
Defined.

(** X9 on a run: the listing of V1 with limit 1 after its first update. *)
Lemma list_events_after_update_witness :
  let s' := {| VEHICLE_STATE :=
                 {["V1" := VehicleStatus.mk "V1" (Some "airport") 12.9611 77.6387 1700000000]};
               EVENT_LOG := [entered_airport] |} in
  [entered_airport] ≠ [] ∧
  list_events (Some "V1") (Some 1%Z) s' = (Ok [entered_airport], s').
Proof.
  intros s'. split; [discriminate|].
  exact (list_events_after_update (sampled glibc_samples) ZONES
           at_airport initial_state s' _ (Some "V1") first_update_run
           ltac:(discriminate) (or_intror eq_refl)).
Defined.

(** X10 on a run: limits 1 and 2 on a log of three events. *)
Lemma list_events_window_extends_witness :
  let s := {| VEHICLE_STATE := ∅;
              EVENT_LOG := [ entered_airport;
                             enter_event "V2" 1700000030 None "downtown";
                             exit_event "V1" 1700000060 "airport" None ] |} in
  (0 < 1 <= 2)%Z ∧
  ∃ shorter longer,
    list_events None (Some 1%Z) s = (Ok shorter, s) ∧
    list_events None (Some 2%Z) s = (Ok longer, s) ∧
    shorter `suffix_of` longer.
Proof.
  intros s. split; [lia|].
  exact (list_events_window_extends None 1 2 s ltac:(lia)).
Defined.

(** X11 on a run: the term of the distance to [downtown] next to its
    antipode. *)
Lemma haversine_distance_m_domain_error_witness :
  haversine_term (sampled near_antipode_samples)
    (-12.97160014) (-102.4054) 12.9716 77.5946 = Ok 0x1.0000000000001p+0%float ∧
  ((0x1.0000000000001p+0 <? 0) || (1 - 0x1.0000000000001p+0 <? 0))%float = true ∧
  haversine_distance_m (sampled near_antipode_samples)
    (-12.97160014) (-102.4054) 12.9716 77.5946 = Raise ValueError.
Proof.
  assert (haversine_term (sampled near_antipode_samples)
            (-12.97160014) (-102.4054) 12.9716 77.5946 = Ok 0x1.0000000000001p+0%float)
    as Hterm by (vm_compute; reflexivity).
  assert (((0x1.0000000000001p+0 <? 0) || (1 - 0x1.0000000000001p+0 <? 0))%float = true)
    as Hout by (vm_compute; reflexivity).
  split; [exact Hterm|]. split; [exact Hout|].
  exact (haversine_distance_m_domain_error _ _ _ _ _ _ Hterm Hout).
Defined.

(** X12 on a run: the term of the distance from the centre of [downtown]
    to [airport]. *)
Lemma haversine_distance_m_in_domain_witness :
  haversine_term (sampled glibc_samples) 12.9716 77.5946 12.9611 77.6387
    = Ok 0x1.40127ea07c9b8p-23%float ∧
  ((0 <=? 0x1.40127ea07c9b8p-23) && (0 <=? 1 - 0x1.40127ea07c9b8p-23))%float = true ∧
  haversine_distance_m (sampled glibc_samples) 12.9716 77.5946 12.9611 77.6387
    = Ok 0x1.33739991fde02p+12%float.
Proof.
  assert (haversine_term (sampled glibc_samples) 12.9716 77.5946 12.9611 77.6387
          = Ok 0x1.40127ea07c9b8p-23%float) as Hterm by (vm_compute; reflexivity).
  assert (((0 <=? 0x1.40127ea07c9b8p-23) && (0 <=? 1 - 0x1.40127ea07c9b8p-23))%float = true)
    as Hin by (vm_compute; reflexivity).
  split; [exact Hterm|]. split; [exact Hin|].
  rewrite (haversine_distance_m_in_domain _ _ _ _ _ _ Hterm Hin).
  vm_compute. reflexivity.
Defined.

(** X13 on a run: limit -1 on a log of two events. *)
Lemma list_events_nonpositive_limit_witness :
  let s := {| VEHICLE_STATE := ∅;
              EVENT_LOG := [entered_airport; exit_event "V1" 1700000060 "airport" None] |} in
  (0 <= 1)%Z ∧
  list_events None (Some (- 1)%Z) s = (Ok [exit_event "V1" 1700000060 "airport" None], s).
Proof.
  intros s. split; [lia|].
  exact (list_events_nonpositive_limit None 1 s ltac:(lia)).
Defined.

(** * The symmetry of the distance *)

Section Symmetry.
Local Open Scope float_scope.

Lemma binary_round_aux_opp (s : bool) (m e : Z) (l : location) :
  binary_round_aux prec emax (negb s) m e l = SFopp (binary_round_aux prec emax s m e l).
Proof.
  unfold binary_round_aux.
  destruct (shr_fexp prec emax m e l) as [mrs1 e1].
  destruct (shr_fexp prec emax _ e1 loc_Exact) as [mrs2 e2].
  destruct (shr_m mrs2); [done| |done]. by destruct (Z.leb e2 _).
Qed.

Lemma binary_round_opp (s : bool) (m : positive) (e : Z) :
  binary_round prec emax (negb s) m e = SFopp (binary_round prec emax s m e).
Proof.
  unfold binary_round. destruct (shl_align _ _ _) as [mz ez]. apply binary_round_aux_opp.
Qed.

Lemma SFmul_opp_l (x y : spec_float) :
  SFmul prec emax (SFopp x) y = SFopp (SFmul prec emax x y).
Proof.
  destruct x as [sx|sx| |sx mx ex], y as [sy|sy| |sy my ey]; simpl;
    try done; try (by destruct sx, sy).
  rewrite <- binary_round_aux_opp. f_equal. by destruct sx, sy.
Qed.

Lemma SFdiv_opp_l (x y : spec_float) :
  SFdiv prec emax (SFopp x) y = SFopp (SFdiv prec emax x y).
Proof.
  destruct x as [sx|sx| |sx mx ex], y as [sy|sy| |sy my ey]; simpl;
    try done; try (by destruct sx, sy).
  destruct (SFdiv_core_binary _ _ _ _ _ _) as [[mz ez] lz].
  rewrite <- binary_round_aux_opp. f_equal. by destruct sx, sy.
Qed.

Lemma SFmul_comm (x y : spec_float) : SFmul prec emax x y = SFmul prec emax y x.
Proof.
  destruct x as [sx|sx| |sx mx ex], y as [sy|sy| |sy my ey]; simpl;
    try done; try (by destruct sx, sy).
  by rewrite Pos.mul_comm, Z.add_comm, xorb_comm.
Qed.

Lemma SFsub_swap (x y : spec_float) :
  SFreal x → SFreal y →
  SFsub prec emax y x = SFopp (SFsub prec emax x y) ∨
  (SFsub prec emax x y = S754_zero false ∧ SFsub prec emax y x = S754_zero false).
Proof.
  destruct x as [sx|sx| |sx mx ex], y as [sy|sy| |sy my ey]; try done; intros _ _.
  - destruct sx, sy; simpl; auto.
  - left. simpl. by destruct sy.
  - left. simpl. by destruct sx.
  - unfold SFsub. rewrite (Z.min_comm ey ex).
    set (A := cond_Zopp sx _). set (B := cond_Zopp sy _).
    replace (B - A)%Z with (- (A - B))%Z by lia.
    destruct (A - B)%Z as [|d|d]; simpl.
    + by right.
    + left. apply (binary_round_opp false).
    + left. rewrite <- (binary_round_opp true). done.
Qed.

Lemma float_mul_comm (x y : float) : x * y = y * x.
Proof. apply Prim2SF_inj. rewrite !FloatAxioms.mul_spec. apply SFmul_comm. Qed.

Lemma float_mul_opp_l (x y : float) : (- x) * y = - (x * y).
Proof.
  apply Prim2SF_inj.
  rewrite FloatAxioms.mul_spec, !FloatAxioms.opp_spec, FloatAxioms.mul_spec.
  apply SFmul_opp_l.
Qed.

Lemma float_div_opp_l (x y : float) : (- x) / y = - (x / y).
Proof.
  apply Prim2SF_inj.
  rewrite FloatAxioms.div_spec, !FloatAxioms.opp_spec, FloatAxioms.div_spec.
  apply SFdiv_opp_l.
Qed.

Lemma float_sub_swap (x y : float) :
  SFreal (Prim2SF x) → SFreal (Prim2SF y) →
  y - x = - (x - y) ∨ (x - y = 0 ∧ y - x = 0).
Proof.
  intros Hx Hy. destruct (SFsub_swap _ _ Hx Hy) as [H|[H1 H2]].
  - left. apply Prim2SF_inj. by rewrite FloatAxioms.opp_spec, !FloatAxioms.sub_spec.
  - right. split; apply Prim2SF_inj; by rewrite FloatAxioms.sub_spec.
Qed.

Lemma float_opp_involutive (x : float) : - - x = x.
Proof.
  apply Prim2SF_inj. rewrite !FloatAxioms.opp_spec.
  destruct (Prim2SF x); simpl; by rewrite ?negb_involutive.
Qed.

Lemma float_abs_opp (x : float) : abs (- x) = abs x.
Proof.
  apply Prim2SF_inj. rewrite !FloatAxioms.abs_spec, FloatAxioms.opp_spec.
  by destruct (Prim2SF x).
Qed.

(** The half angle of the difference in the other direction: its
    opposite, or the same zero. *)
Lemma half_angle_swap (x y : float) :
  SFreal (Prim2SF x) → SFreal (Prim2SF y) →
  math_radians (x - y) / 2 = - (math_radians (y - x) / 2) ∨
  math_radians (x - y) / 2 = math_radians (y - x) / 2.
Proof.
  intros Hx Hy. destruct (float_sub_swap y x Hy Hx) as [->|[-> ->]]; [left|by right].
  unfold math_radians. by rewrite float_mul_opp_l, float_div_opp_l.
Qed.

(** The squared sine of the half angle does not depend on the
    direction. *)
Lemma squared_sine_swap (lib : PyMath) (x y s p : float) :
  sine_odd lib → square_even lib →
  SFreal (Prim2SF x) → SFreal (Prim2SF y) →
  math_sin lib (math_radians (y - x) / 2) = Ok s →
  float_pow lib s 2 = Ok p →
  ∃ s', math_sin lib (math_radians (x - y) / 2) = Ok s' ∧ float_pow lib s' 2 = Ok p.
Proof.
  intros Hodd Heven Hx Hy Hs Hp.
  destruct (half_angle_swap x y Hx Hy) as [->| ->].
  - exists (- s). split; [by apply Hodd|]. by rewrite Heven.
  - by exists s.
Qed.

Lemma haversine_term_swap (lib : PyMath) (lat1 lon1 lat2 lon2 a : float) :
  sine_odd lib → square_even lib →
  valid_coordinate lat1 lon1 → valid_coordinate lat2 lon2 →
  haversine_term lib lat1 lon1 lat2 lon2 = Ok a →
  haversine_term lib lat2 lon2 lat1 lon1 = Ok a.
Proof.
  intros Hodd Heven [Hlat1 Hlon1]%valid_coordinate_real [Hlat2 Hlon2]%valid_coordinate_real.
  unfold haversine_term, mbind, result_bind.
  destruct (math_sin lib (math_radians (lat2 - lat1) / 2)) as [s1|] eqn:Hs1; [|done].
  destruct (float_pow lib s1 2) as [p1|] eqn:Hp1; [|done].
  destruct (math_cos lib (math_radians lat1)) as [c1|]; [|done].
  destruct (math_cos lib (math_radians lat2)) as [c2|]; [|done].
  destruct (math_sin lib (math_radians (lon2 - lon1) / 2)) as [s2|] eqn:Hs2; [|done].
  destruct (float_pow lib s2 2) as [p2|] eqn:Hp2; [|done].
  intros [= <-].
  destruct (squared_sine_swap lib lat1 lat2 s1 p1 Hodd Heven Hlat1 Hlat2 Hs1 Hp1)
    as (s1' & -> & ->).
  destruct (squared_sine_swap lib lon1 lon2 s2 p2 Hodd Heven Hlon1 Hlon2 Hs2 Hp2)
    as (s2' & -> & ->).
  simpl. by rewrite (float_mul_comm c2 c1).
Qed.

(** X14: the distance is symmetric.  On a C library whose sine is odd and
    whose square does not depend on the sign, a distance between two
    valid coordinates that is returned in one direction is returned, the
    same float, in the other. *)
Theorem haversine_distance_m_symmetric (lib : PyMath) (lat1 lon1 lat2 lon2 d : float) :
  sine_odd lib → square_even lib →
  valid_coordinate lat1 lon1 → valid_coordinate lat2 lon2 →
  haversine_distance_m lib lat1 lon1 lat2 lon2 = Ok d →
  haversine_distance_m lib lat2 lon2 lat1 lon1 = Ok d.
Proof.
  intros Hodd Heven H1 H2. rewrite !haversine_distance_m_from_term.
  destruct (haversine_term lib lat1 lon1 lat2 lon2) as [a|] eqn:Hterm; [|done].
  by rewrite (haversine_term_swap lib _ _ _ _ a Hodd Heven H1 H2 Hterm).
Qed.

(** The library [mirrored t] has the two symmetries. *)
Lemma sample1_entry (Q : float → float → Prop) (l : list (float * float)) (x y : float) :
  Forall (λ p, Q p.1 p.2) l → sample1 l x = Ok y → Q x y.
Proof.
  induction 1 as [|[x' y'] l Hhd _ IH]; simpl; [done|].
  destruct (Leibniz.eqb x' x) eqn:Heq; [|apply IH].
  apply Leibniz.eqb_spec in Heq as ->. by intros [= <-].
Qed.

Lemma mirrored_sine_odd (t : Samples) : odd_consistent (sin_at t) → sine_odd (mirrored t).
Proof.
  intros Ht x y. simpl.
  destruct (sample1 (sin_at t) x) as [y0|e] eqn:Hx.
  - intros [= <-].
    pose proof (sample1_entry
                  (λ x y, match sample1 (sin_at t) (- x) with
                          | Ok y' => y' = - y
                          | Raise _ => True
                          end) _ _ _ Ht Hx) as Hcons. simpl in Hcons.
    destruct (sample1 (sin_at t) (- x)) as [y'|e]; [by rewrite Hcons|].
    by rewrite float_opp_involutive, Hx.
  - destruct (sample1 (sin_at t) (- x)) as [y0|e0] eqn:Hmx; [|done].
    intros [= <-]. by rewrite float_opp_involutive.
Qed.

Lemma mirrored_square_even (t : Samples) : square_even (mirrored t).
Proof. intros x. simpl. by rewrite float_abs_opp. Qed.

End Symmetry.

(** X14 on a run: from the centre of [downtown] to the centre of
    [airport] and back, 4919.22 m. *)
Lemma haversine_distance_m_symmetric_witness :
  sine_odd (mirrored symmetry_samples) ∧
  square_even (mirrored symmetry_samples) ∧
  valid_coordinate 12.9716 77.5946 ∧
  valid_coordinate 12.9611 77.6387 ∧
  haversine_distance_m (mirrored symmetry_samples) 12.9716 77.5946 12.9611 77.6387
    = Ok 0x1.33739991fde02p+12%float ∧
  haversine_distance_m (mirrored symmetry_samples) 12.9611 77.6387 12.9716 77.5946
    = Ok 0x1.33739991fde02p+12%float.
Proof.
  assert (sine_odd (mirrored symmetry_samples)) as Hodd.
  { apply mirrored_sine_odd. repeat (constructor; [by vm_compute|]). constructor. }
  pose proof (mirrored_square_even symmetry_samples) as Heven.
  assert (valid_coordinate 12.9716 77.5946) as H1 by (split; vm_compute; reflexivity).
  assert (valid_coordinate 12.9611 77.6387) as H2 by (split; vm_compute; reflexivity).
  assert (haversine_distance_m (mirrored symmetry_samples) 12.9716 77.5946 12.9611 77.6387
          = Ok 0x1.33739991fde02p+12%float) as Hd by (vm_compute; reflexivity).
  repeat (split; [assumption|]).
  exact (haversine_distance_m_symmetric _ _ _ _ _ _ Hodd Heven H1 H2 Hd).
Defined.
